(** * watch-changes: the unsaved-changes watcher of [src/watch-changes.js]

    A shallow embedding of the [watchChanges] constructor and its prototype
    methods, together with the page-level state they act on: the
    module-level [_defaults] object, [window.onbeforeunload], the DOM nodes
    the status presenter writes to, and a log of the calls made to
    user-supplied callbacks. *)

From stdpp Require Import base option list gmap strings.

Local Open Scope string_scope.

(** ** JavaScript values and plain objects *)

(** Function values.  The three [function () { }] literals of [_defaults]
    are distinct function objects; anything else is supplied by a caller. *)
Inductive Fn :=
  | DefaultOnUnload
  | DefaultOnSetAlert
  | DefaultOnUnsetAlert
  | UserFn (n : nat).

Inductive Value :=
  | VUndefined
  | VNull
  | VBool (b : bool)
  | VNum (z : Z)
  | VStr (s : string)
  | VFun (f : Fn).

#[global] Instance Fn_eq_dec : EqDecision Fn.
Proof. solve_decision. Defined.

#[global] Instance Value_eq_dec : EqDecision Value.
Proof. solve_decision. Defined.

(** A plain object used as a string-keyed map (option bags, [.data()]). *)
Abbreviation Obj := (gmap string Value).

(** Property read [o.k]: a missing key reads as [undefined]. *)
Definition prop (o : Obj) (k : string) : Value := default VUndefined (o !! k).

(** JavaScript truthiness, as used by [||], [!] and [if]. *)
Definition truthy (v : Value) : bool :=
  match v with
  | VUndefined | VNull => false
  | VBool b => b
  | VNum z => negb (z =? 0)%Z
  | VStr s => negb (String.eqb s "")
  | VFun _ => true
  end.

(** [a || b] *)
Definition js_or (a b : Value) : Value := if truthy a then a else b.

Definition is_undefined (v : Value) : bool :=
  match v with VUndefined => true | _ => false end.

Definition is_function (v : Value) : bool :=
  match v with VFun _ => true | _ => false end.

(** ** [$.extend]

    jQuery's shallow [$.extend(target, src1, ..., srcN)] walks the sources
    left to right and, for every own key whose value is not [undefined],
    assigns [target[key] = value]; [null]/[undefined] sources are skipped.
    The key ["__proto__"] never becomes an own property of the target:
    jQuery skips it (and where it does not, the assignment sets the
    prototype instead of creating a property).  The target is mutated in
    place and returned.  [extend1] is the effect of one source on the
    contents of the target; [extend_all] folds it over the argument list. *)
Definition defined_props (src : Obj) : Obj :=
  filter (λ kv, kv.2 ≠ VUndefined ∧ kv.1 ≠ "__proto__") src.

Definition extend1 (target : Obj) (src : option Obj) : Obj :=
  match src with
  | Some o => defined_props o ∪ target
  | None => target
  end.

Definition extend_all (target : Obj) (srcs : list (option Obj)) : Obj :=
  foldl extend1 target srcs.

(** ** The module-level defaults (lines 45-56) *)

Definition _defaults : Obj :=
  list_to_map
    [ ("watchChangesStatus", VStr "There are unsaved changes on this page");
      ("watchChangesAlert",
        VStr "You've made changes on this page that are NOT SAVED and will be LOST if you leave this page. Are you sure you want continue?");
      ("watchChangesStatusElement", VStr ".js-watch-changes-status");
      ("watchChangesSavedElement", VStr ".js-watch-changes-saved");
      ("watchChangesExceptions", VStr "[type=submit], [data-submit]");
      ("watchChangesSubmits", VStr "[type=submit], [data-submit]");
      ("watchChangesIgnored", VStr "[data-ignore-changes]");
      ("onUnload", VFun DefaultOnUnload);
      ("onSetAlert", VFun DefaultOnSetAlert);
      ("onUnsetAlert", VFun DefaultOnUnsetAlert) ].

(** The option names the module recognises. *)
Definition recognized_options : list string :=
  [ "watchChangesStatus"; "watchChangesAlert"; "watchChangesStatusElement";
    "watchChangesSavedElement"; "watchChangesExceptions";
    "watchChangesSubmits"; "watchChangesIgnored";
    "onUnload"; "onSetAlert"; "onUnsetAlert" ].

#[global] Arguments prop : simpl never.

(** ** Page state *)

(** A DOM node, as far as the watcher touches it: the text last written by
    [.text(v)] (kept as the value passed; rendering it is the browser's
    business), its CSS classes, and what [.data()] returns for it. *)
Record Node := {
  text : Value;
  classes : gset string;
  data : Obj
}.

(** References to objects that are shared between closures and sessions.
    [$.extend] returns its first argument, so [this.options] of every
    initialised session is the module-level [_defaults] object itself. *)
Inductive SharedRef := Ref_defaults.

(** What a local [options] variable can hold: the shared object, or a fresh
    object literal that nothing else refers to. *)
Inductive ObjRef :=
  | Shared (r : SharedRef)
  | Fresh (o : Obj).

(** Values of [window.onbeforeunload] other than [null]: the closure
    installed by [setAlert] (lines 145-152), which captures [options], or
    a handler some other script installed. *)
Inductive Handler :=
  | BeforeUnload (options : ObjRef)
  | Foreign (n : nat).

(** Calls made to callback functions, oldest first. *)
Inductive Effect := Called (f : Fn).

Record World := {
  defaults_obj : Obj;                 (* current contents of [_defaults] *)
  onbeforeunload : option Handler;    (* [window.onbeforeunload] *)
  dom : gmap nat Node;
  calls : list Effect
}.

(** The pair of delegated handlers that one run of [init] binds on a
    non-empty [$scope]: the click handler with the selector it was bound
    with, and the keyup/change handler; both close over [options]. *)
Record Listener := {
  click_selector : Value;
  closure_options : ObjRef
}.

(** A [watchChanges] instance.  [None] is a property never assigned. *)
Record Session := {
  hasChanges : bool;
  isException : bool;
  scope : list nat;                      (* [this.$scope] *)
  dataOptions : option Obj;
  options : option SharedRef;
  statusNote : option (list nat);        (* [this.$statusNote] *)
  savedChanges : option (list nat);      (* [this.$savedChanges] *)
  listeners : list Listener
}.

(** The event object handed to a handler. *)
Record Event := {
  target : nat;
  immediatePropagationStopped : bool
}.

Inductive Err := TypeError.

Record St := { this : Session; win : World }.

(** ** A state monad with exceptions

    A thrown exception aborts the rest of the computation but keeps every
    assignment made before it, as in JavaScript. *)
Definition M (A : Type) : Type := St → St * (Err + A).

Definition ret {A} (a : A) : M A := λ st, (st, inr a).

Definition throw {A} (e : Err) : M A := λ st, (st, inl e).

Definition bind {A B} (m : M A) (k : A → M B) : M B :=
  λ st, match m st with
        | (st', inr a) => k a st'
        | (st', inl e) => (st', inl e)
        end.

Notation "x <- m ;; k" := (bind m (λ x, k))
  (at level 20, m at level 99, k at level 200, only parsing).
Notation "m ;; k" := (bind m (λ _, k))
  (at level 100, k at level 200, right associativity, only parsing).

Definition get_this : M Session := λ st, (st, inr (this st)).
Definition get_win : M World := λ st, (st, inr (win st)).
Definition modify_this (f : Session → Session) : M unit :=
  λ st, ({| this := f (this st); win := win st |}, inr tt).
Definition modify_win (f : World → World) : M unit :=
  λ st, ({| this := this st; win := f (win st) |}, inr tt).

(** Final state and outcome of a computation. *)
Definition exec {A} (m : M A) (st : St) : St := (m st).1.
Definition outcome {A} (m : M A) (st : St) : Err + A := (m st).2.

(** Field assignments. *)
Definition set_hasChanges (b : bool) (s : Session) : Session :=
  {| hasChanges := b; isException := isException s; scope := scope s;
     dataOptions := dataOptions s; options := options s;
     statusNote := statusNote s; savedChanges := savedChanges s;
     listeners := listeners s |}.
Definition set_isException (b : bool) (s : Session) : Session :=
  {| hasChanges := hasChanges s; isException := b; scope := scope s;
     dataOptions := dataOptions s; options := options s;
     statusNote := statusNote s; savedChanges := savedChanges s;
     listeners := listeners s |}.
Definition set_scope (x : list nat) (s : Session) : Session :=
  {| hasChanges := hasChanges s; isException := isException s; scope := x;
     dataOptions := dataOptions s; options := options s;
     statusNote := statusNote s; savedChanges := savedChanges s;
     listeners := listeners s |}.
Definition set_dataOptions (x : option Obj) (s : Session) : Session :=
  {| hasChanges := hasChanges s; isException := isException s; scope := scope s;
     dataOptions := x; options := options s;
     statusNote := statusNote s; savedChanges := savedChanges s;
     listeners := listeners s |}.
Definition set_options (x : option SharedRef) (s : Session) : Session :=
  {| hasChanges := hasChanges s; isException := isException s; scope := scope s;
     dataOptions := dataOptions s; options := x;
     statusNote := statusNote s; savedChanges := savedChanges s;
     listeners := listeners s |}.
Definition set_statusNote (x : option (list nat)) (s : Session) : Session :=
  {| hasChanges := hasChanges s; isException := isException s; scope := scope s;
     dataOptions := dataOptions s; options := options s;
     statusNote := x; savedChanges := savedChanges s;
     listeners := listeners s |}.
Definition set_savedChanges (x : option (list nat)) (s : Session) : Session :=
  {| hasChanges := hasChanges s; isException := isException s; scope := scope s;
     dataOptions := dataOptions s; options := options s;
     statusNote := statusNote s; savedChanges := x;
     listeners := listeners s |}.
Definition add_listener (l : Listener) (s : Session) : Session :=
  {| hasChanges := hasChanges s; isException := isException s; scope := scope s;
     dataOptions := dataOptions s; options := options s;
     statusNote := statusNote s; savedChanges := savedChanges s;
     listeners := listeners s ++ [l] |}.

Definition set_defaults_obj (o : Obj) (w : World) : World :=
  {| defaults_obj := o; onbeforeunload := onbeforeunload w;
     dom := dom w; calls := calls w |}.
Definition set_onbeforeunload (h : option Handler) (w : World) : World :=
  {| defaults_obj := defaults_obj w; onbeforeunload := h;
     dom := dom w; calls := calls w |}.
Definition set_dom (d : gmap nat Node) (w : World) : World :=
  {| defaults_obj := defaults_obj w; onbeforeunload := onbeforeunload w;
     dom := d; calls := calls w |}.
Definition log_call (f : Fn) (w : World) : World :=
  {| defaults_obj := defaults_obj w; onbeforeunload := onbeforeunload w;
     dom := dom w; calls := calls w ++ [Called f] |}.

(** ** jQuery set operations on the DOM *)

Definition set_text (v : Value) (n : Node) : Node :=
  {| text := v; classes := classes n; data := data n |}.
Definition add_class (c : string) (n : Node) : Node :=
  {| text := text n; classes := {[c]} ∪ classes n; data := data n |}.
Definition remove_class (c : string) (n : Node) : Node :=
  {| text := text n; classes := classes n ∖ {[c]}; data := data n |}.

(** Apply [f] to every node of a jQuery set. *)
Definition jq_each (f : Node → Node) (els : list nat) (d : gmap nat Node)
  : gmap nat Node :=
  foldr (alter f) d els.

(** [.text(v)]: with [undefined] nothing is written and the set is returned
    for chaining; otherwise each node's text becomes [v].  This covers the
    arguments that are data (strings, numbers, booleans, [null]), which is
    what a status text is.  A function argument is not covered: jQuery
    would call it for every node and write what it returns, and the result
    of a caller's function is not something this model knows; the
    properties that speak about an arbitrary status argument therefore
    exclude functions ([is_function]). *)
Definition jq_text (v : Value) (els : list nat) (d : gmap nat Node)
  : gmap nat Node :=
  if is_undefined v then d else jq_each (set_text v) els d.

(** [.data()] of a set: the data object of its first element. *)
Definition jq_data (d : gmap nat Node) (els : list nat) : option Obj :=
  match els with
  | [] => None
  | el :: _ => Some (default ∅ (data <$> d !! el))
  end.

(** What [util.jqCheck] is applied to: a selector (or other plain value),
    or an existing jQuery set. *)
Inductive JqArg :=
  | ArgValue (v : Value)
  | ArgJq (els : list nat).

(** ** The watcher *)

Section Model.

(** jQuery and DOM collaborators, none of which this module defines:
    [matches d el sel] is [$(el).is(sel)] for a single element,
    [jq d sel] is the document query [$(sel)], and [jqCheck d x] is
    [util.jqCheck(x)] from [app/modules/helpers/util]. *)
Variable matches : gmap nat Node → nat → Value → bool.
Variable jq : gmap nat Node → Value → list nat.
Variable jqCheck : gmap nat Node → JqArg → list nat.

(** [$set.is(selector)]: some element of the set matches. *)
Definition jq_is (d : gmap nat Node) (els : list nat) (sel : Value) : bool :=
  existsb (λ el, matches d el sel) els.

(** [v(...)]: calling anything but a function throws. *)
Definition call (v : Value) : M unit :=
  match v with
  | VFun f => modify_win (log_call f)
  | _ => throw TypeError
  end.

(** Contents of the object a reference points to. *)
Definition contents (w : World) (r : ObjRef) : Obj :=
  match r with
  | Shared Ref_defaults => defaults_obj w
  | Fresh o => o
  end.

Definition deref (r : ObjRef) : M Obj :=
  w <- get_win ;; ret (contents w r).

(** [this.options.<key>], [this.$statusNote.<method>], ...: reading a
    property of [undefined] throws. *)
Definition this_options : M Obj :=
  s <- get_this ;;
  match options s with
  | Some r => deref (Shared r)
  | None => throw TypeError
  end.

Definition this_statusNote : M (list nat) :=
  s <- get_this ;;
  match statusNote s with
  | Some els => ret els
  | None => throw TypeError
  end.

Definition this_savedChanges : M (list nat) :=
  s <- get_this ;;
  match savedChanges s with
  | Some els => ret els
  | None => throw TypeError
  end.

(** [options = $.extend( this.options, options )] (lines 90 and 139).
    With [this.options] set, the shared object is extended in place and
    returned; with [this.options] undefined jQuery starts from a fresh
    [{}]. *)
Definition extend_this_options (opts : option Obj) : M ObjRef :=
  s <- get_this ;;
  match options s with
  | Some Ref_defaults =>
      modify_win (λ w, set_defaults_obj (extend1 (defaults_obj w) opts) w) ;;
      ret (Shared Ref_defaults)
  | None => ret (Fresh (extend1 ∅ opts))
  end.

(** The closure assigned to [window.onbeforeunload] (lines 145-152). *)
Definition beforeunload_handler (options : ObjRef) : M Value :=
  o <- deref options ;;
  call (prop o "onUnload") ;;
  o <- deref options ;;
  ret (prop o "watchChangesAlert").

(** [setAlert] (lines 137-155) *)
Definition setAlert (opts : option Obj) : M unit :=
  options <- extend_this_options opts ;;
  o <- deref options ;;
  call (prop o "onSetAlert") ;;
  w <- get_win ;;
  match onbeforeunload w with
  | None => modify_win (set_onbeforeunload (Some (BeforeUnload options)))
  | Some _ => ret tt
  end.

(** [unsetAlert] (lines 157-166) *)
Definition unsetAlert : M unit :=
  o <- this_options ;;
  call (prop o "onUnsetAlert") ;;
  modify_win (set_onbeforeunload None).

(** [checkForException] (lines 175-190) *)
Definition checkForException (element : JqArg) : M bool :=
  w <- get_win ;;
  let element' := jqCheck (dom w) element in
  o <- this_options ;;
  let exceptions := prop o "watchChangesExceptions" in
  if Nat.eqb (length element') 0 then ret true
  else
    modify_this (set_isException (jq_is (dom w) element' exceptions)) ;;
    s <- get_this ;;
    (if negb (isException s) then modify_this (set_hasChanges true)
     else ret tt) ;;
    s <- get_this ;;
    ret (isException s).

(** [hideSavedChangesMessage], [showSavedChangesMessage] (lines 223-231) *)
Definition hideSavedChangesMessage : M unit :=
  els <- this_savedChanges ;;
  modify_win (λ w, set_dom (jq_each (add_class "hidden") els (dom w)) w).

Definition showSavedChangesMessage : M unit :=
  els <- this_savedChanges ;;
  modify_win (λ w, set_dom (jq_each (remove_class "hidden") els (dom w)) w).

(** [updateStatusNote] (lines 192-214) *)
Definition updateStatusNote (status : Value) : M unit :=
  status <- (if truthy status then ret status
             else o <- this_options ;; ret (prop o "watchChangesStatus")) ;;
  s <- get_this ;;
  if hasChanges s then
    els <- this_statusNote ;;
    modify_win (λ w, set_dom (jq_text status els (dom w)) w) ;;
    modify_win (λ w, set_dom (jq_each (add_class "has-changes") els (dom w)) w) ;;
    hideSavedChangesMessage ;;
    setAlert None
  else
    els <- this_statusNote ;;
    modify_win (λ w, set_dom (jq_each (remove_class "has-changes") els (dom w)) w) ;;
    showSavedChangesMessage ;;
    unsetAlert.

(** [updateHasChanges] (lines 216-221) *)
Definition updateHasChanges (state : bool) : M unit :=
  modify_this (set_hasChanges state) ;;
  updateStatusNote VUndefined.

(** The click handler bound by [init] (lines 94-99). *)
Definition click_handler (e : Event) : M Event :=
  let e := {| target := target e; immediatePropagationStopped := true |} in
  unsetAlert ;;
  ret e.

(** What the keyup/change handler does once the target is known not to be
    ignored and [checkForException] has run (lines 114-123). *)
Definition status_and_guard : M unit :=
  updateStatusNote VUndefined ;;
  s <- get_this ;;
  if negb (isException s) && hasChanges s then setAlert None
  else if isException s then unsetAlert
  else ret tt.

(** The keyup/change handler bound by [init] (lines 102-125); [options]
    is the variable of [init] the closure captured. *)
Definition change_handler (options : ObjRef) (e : Event) : M Event :=
  w <- get_win ;;
  let element := [target e] in
  o <- deref options ;;
  let ignored := prop o "watchChangesIgnored" in
  if jq_is (dom w) element ignored then ret e
  else
    checkForException (ArgJq element) ;;
    status_and_guard ;;
    ret e.

(** [init] (lines 85-127).  [.on] over an empty [$scope] binds nothing. *)
Definition init (opts : option Obj) : M unit :=
  options <- extend_this_options opts ;;
  o <- deref options ;;
  s <- get_this ;;
  match scope s with
  | [] => ret tt
  | _ :: _ =>
      modify_this (add_listener {| click_selector := prop o "watchChangesSubmits";
                                   closure_options := options |})
  end.

(** The constructor (lines 65-81). *)
Definition watchChanges (scope_arg : Value) (opts : option Obj) : M unit :=
  modify_this (set_hasChanges false) ;;
  modify_this (set_isException false) ;;
  w <- get_win ;;
  modify_this (set_scope (jqCheck (dom w) (ArgValue scope_arg))) ;;
  s <- get_this ;;
  if Nat.eqb (length (scope s)) 0 then ret tt
  else
    modify_this (set_dataOptions (jq_data (dom w) (scope s))) ;;
    s <- get_this ;;
    modify_win (λ w, set_defaults_obj
                       (extend_all (defaults_obj w) [opts; dataOptions s]) w) ;;
    modify_this (set_options (Some Ref_defaults)) ;;
    o <- this_options ;;
    w <- get_win ;;
    modify_this (set_statusNote (Some (jq (dom w) (prop o "watchChangesStatusElement")))) ;;
    o <- this_options ;;
    w <- get_win ;;
    modify_this (set_savedChanges (Some (jq (dom w) (prop o "watchChangesSavedElement")))) ;;
    init None.

(** The object [new] hands to the constructor. *)
Definition new_object : Session :=
  {| hasChanges := false; isException := false; scope := [];
     dataOptions := None; options := None; statusNote := None;
     savedChanges := None; listeners := [] |}.

(** [new watchChanges(scope, options)] on page [w]: the session built,
    the page afterwards, and whether the constructor threw. *)
Definition construct (scope_arg : Value) (opts : option Obj) (w : World)
  : St * (Err + unit) :=
  watchChanges scope_arg opts {| this := new_object; win := w |}.

(** ** Event delivery

    jQuery runs the handlers bound for an event in binding order and
    stops after one that called [stopImmediatePropagation]; an exception
    escapes the loop. *)
Fixpoint dispatch (hs : list (Event → M Event)) (e : Event) : M Event :=
  match hs with
  | [] => ret e
  | h :: hs' =>
      e' <- h e ;;
      if immediatePropagationStopped e' then ret e' else dispatch hs' e'
  end.

(** A click whose target the delegated submit selector accepts. *)
Definition onSubmitIntent (t : nat) : M Event :=
  s <- get_this ;;
  dispatch (map (λ _, click_handler) (listeners s))
           {| target := t; immediatePropagationStopped := false |}.

(** A keyup or change event from an input, select or textarea of the
    region. *)
Definition onFieldMutation (t : nat) : M Event :=
  s <- get_this ;;
  dispatch (map (λ l, change_handler (closure_options l)) (listeners s))
           {| target := t; immediatePropagationStopped := false |}.

(** [setDirty] is the spec's name for [updateHasChanges]. *)
Definition setDirty (state : bool) : M unit := updateHasChanges state.

(** The operations a page performs on a session, and a run of several of
    them.  An exception thrown by one event handler does not prevent
    later events from being delivered. *)
Inductive Op :=
  | FieldMutation (t : nat)
  | SubmitIntent (t : nat)
  | SetDirty (state : bool).

Definition step (op : Op) (st : St) : St :=
  match op with
  | FieldMutation t => exec (onFieldMutation t) st
  | SubmitIntent t => exec (onSubmitIntent t) st
  | SetDirty b => exec (setDirty b) st
  end.

Definition run_ops (ops : list Op) (st : St) : St := foldl (λ st op, step op st) st ops.

(** ** Observations *)

(** The navigation guard is armed when a before-unload handler is set. *)
Definition armed (w : World) : bool :=
  match onbeforeunload w with Some _ => true | None => false end.

(** The option values a session sees: those of the object [this.options]
    refers to. *)
Definition config (st : St) : option Obj :=
  match options (this st) with
  | Some Ref_defaults => Some (defaults_obj (win st))
  | None => None
  end.

End Model.

#[global] Arguments jq_each : simpl never.
#[global] Arguments jq_text : simpl never.
#[global] Arguments extend1 : simpl never.
#[global] Arguments jq_is : simpl never.

(** ** Derived notions used to state the properties *)

(** Net effect of lines 144-153 on the page: the closure over the shared
    options object is installed unless some handler is already there. *)
Definition arm (w : World) : World :=
  match onbeforeunload w with
  | None => set_onbeforeunload (Some (BeforeUnload (Shared Ref_defaults))) w
  | Some _ => w
  end.

(** The DOM after the dirty branch (lines 197-201) and after the clean
    branch (lines 206-208) of [updateStatusNote]. *)
Definition present_dirty (v : Value) (note saved : list nat) (d : gmap nat Node)
  : gmap nat Node :=
  jq_each (add_class "hidden") saved
    (jq_each (add_class "has-changes") note (jq_text v note d)).

Definition present_clean (note saved : list nat) (d : gmap nat Node)
  : gmap nat Node :=
  jq_each (remove_class "hidden") saved
    (jq_each (remove_class "has-changes") note d).

(** The session after [checkForException] on a one-element set (lines
    183-186), given whether the element is an exception. *)
Definition after_check (ex : bool) (s : Session) : Session :=
  if ex then set_isException true s
  else set_hasChanges true (set_isException false s).

(** State predicates that can only be broken by clearing [hasChanges] or by
    writing to the shared options object. *)
Definition framed (P : St → Prop) : Prop :=
  ∀ s w s' w',
    P {| this := s; win := w |} →
    (hasChanges s = true → hasChanges s' = true) →
    defaults_obj w' = defaults_obj w →
    P {| this := s'; win := w' |}.

(** [m] never leaves the set of states [P]: whatever it does, and whether
    or not it throws, a state in [P] ends in [P]. *)
Definition preserves {A} (P : St → Prop) (m : M A) : Prop :=
  ∀ st, P st → P (exec m st).

(** A session as the constructor leaves it on a non-empty region: options,
    status and saved-message sets assigned, and one pair of handlers bound,
    closing over the shared options object. *)
Definition initialised (s : Session) : bool :=
  match options s, statusNote s, savedChanges s, listeners s with
  | Some Ref_defaults, Some _, Some _,
    [ {| closure_options := Shared Ref_defaults |} ] => true
  | _, _, _, _ => false
  end.

(** The status presentation of a session on a page: every status element
    carries text [v] and the [has-changes] class, every saved-message
    element is hidden. *)
Definition dirty_presented (v : Value) (note saved : list nat) (d : gmap nat Node) : Prop :=
  (∀ el n, el ∈ note → d !! el = Some n → text n = v ∧ "has-changes" ∈ classes n) ∧
  (∀ el n, el ∈ saved → d !! el = Some n → "hidden" ∈ classes n).

(** ... and the clean presentation: no status element carries
    [has-changes], no saved-message element is hidden. *)
Definition clean_presented (note saved : list nat) (d : gmap nat Node) : Prop :=
  (∀ el n, el ∈ note → d !! el = Some n → "has-changes" ∉ classes n) ∧
  (∀ el n, el ∈ saved → d !! el = Some n → "hidden" ∉ classes n).

(** ** A concrete page

    One form (node 0) holding a text input [name] (node 1), a submit
    button (node 2) and a field marked [data-ignore-changes] (node 5); a
    status label (node 3) and a saved message (node 4); and a second form
    (node 6). *)
Definition demo_node : Node := {| text := VStr ""; classes := ∅; data := ∅ |}.

Definition demo_dom : gmap nat Node :=
  list_to_map [ (0, demo_node); (1, demo_node); (2, demo_node); (3, demo_node);
                (4, demo_node); (5, demo_node); (6, demo_node) ]%nat.

Definition demo_matches (d : gmap nat Node) (el : nat) (sel : Value) : bool :=
  match sel with
  | VStr s =>
      if String.eqb s "[type=submit], [data-submit]" then Nat.eqb el 2
      else if String.eqb s "[data-ignore-changes]" then Nat.eqb el 5
      else false
  | _ => false
  end.

Definition demo_jq (d : gmap nat Node) (sel : Value) : list nat :=
  match sel with
  | VStr s =>
      if String.eqb s ".js-watch-changes" then [0%nat]
      else if String.eqb s ".js-watch-changes-status" then [3%nat]
      else if String.eqb s ".js-watch-changes-saved" then [4%nat]
      else if String.eqb s "#other-form" then [6%nat]
      else []
  | _ => []
  end.

Definition demo_jqCheck (d : gmap nat Node) (x : JqArg) : list nat :=
  match x with
  | ArgValue v => demo_jq d v
  | ArgJq els => els
  end.

(** The page when the module has just been loaded. *)
Definition demo_page : World :=
  {| defaults_obj := _defaults; onbeforeunload := None;
     dom := demo_dom; calls := [] |}.

(** [new watchChanges('.js-watch-changes')] on that page. *)
Definition demo_session : St :=
  (construct demo_jq demo_jqCheck (VStr ".js-watch-changes") None demo_page).1.

(** The session after the user typed into [name] (node 1), and after a
    keyup on the submit button (node 2), an exception field. *)
Definition demo_dirty : St :=
  exec (onFieldMutation demo_matches demo_jqCheck 1) demo_session.

Definition demo_excepted : St :=
  exec (onFieldMutation demo_matches demo_jqCheck 2) demo_session.

(** [new watchChanges('#missing')]: the selector matches nothing. *)
Definition demo_inert : St :=
  (construct demo_jq demo_jqCheck (VStr "#missing") None demo_page).1.

(** A session constructed with a caller's [onSetAlert] callback, after the
    user typed into [name]: the guard is armed. *)
Definition demo_hooked : St :=
  exec (onFieldMutation demo_matches demo_jqCheck 1)
    (construct demo_jq demo_jqCheck (VStr ".js-watch-changes")
       (Some {[ "onSetAlert" := VFun (UserFn 1) ]}) demo_page).1.

(** Steps 3-4 of the keyup/change handler run after assigning
    [hasChanges = state], for comparison with [setDirty(state)]. *)
Definition assign_then_steps_3_4 (state : bool) : M unit :=
  modify_this (set_hasChanges state) ;;
  status_and_guard.

(** Two constructions in a row on the freshly loaded page: first the form
    with an options argument, then the second form without one. *)
Definition demo_first_with_options : St :=
  (construct demo_jq demo_jqCheck (VStr ".js-watch-changes")
     (Some {[ "watchChangesStatus" := VStr "Draft not saved" ]}) demo_page).1.

Definition demo_second_plain : St :=
  (construct demo_jq demo_jqCheck (VStr "#other-form") None
     (win demo_first_with_options)).1.

(** The first form's session, constructed without options, seen on the page
    as it is after a second session was constructed with an options
    argument of its own. *)
Definition demo_other_with_options : St :=
  (construct demo_jq demo_jqCheck (VStr "#other-form")
     (Some {[ "watchChangesAlert" := VStr "Leave the other form?" ]})
     (win demo_session)).1.

Definition demo_session_afterwards : St :=
  {| this := this demo_session; win := win demo_other_with_options |}.


(** A page on which the second form (node 6) carries
    [data-watch-changes-status="Second form has edits"]. *)
Definition demo_attr_dom : gmap nat Node :=
  <[ 6%nat := {| text := VStr ""; classes := ∅;
                 data := {[ "watchChangesStatus" := VStr "Second form has edits" ]} |} ]>
    demo_dom.

Definition demo_attr_page : World :=
  {| defaults_obj := _defaults; onbeforeunload := None;
     dom := demo_attr_dom; calls := [] |}.

(** A second watcher, for the second form, constructed on the page as the
    first form's session left it. *)
Definition demo_second_session : Session :=
  this (construct demo_jq demo_jqCheck (VStr "#other-form") None
          (win demo_session)).1.

(** * Properties *)

(** ** [$.extend] *)

Lemma prop_extend1_Some target o k :
  k ≠ "__proto__" →
  prop (extend1 target (Some o)) k =
  if is_undefined (prop o k) then prop target k else prop o k.
Proof.
  intros Hk. unfold prop, extend1, defined_props.
  rewrite lookup_union, map_lookup_filter.
  destruct (o !! k) as [v|] eqn:Hok; simpl.
  - case_guard as Hv; simpl.
    + destruct Hv as [Hv _]. simpl in Hv.
      destruct v; try done; by destruct (target !! k).
    + destruct (decide (v = VUndefined)) as [->|Hne].
      * simpl. by destruct (target !! k).
      * exfalso. apply Hv. by split.
  - by destruct (target !! k).
Qed.

(** An own ["__proto__"] entry is never created or changed. *)
Lemma extend1_proto target src :
  extend1 target src !! "__proto__" = target !! "__proto__".
Proof.
  destruct src as [o|]; [|done]. unfold extend1, defined_props.
  rewrite lookup_union, map_lookup_filter.
  destruct (o !! "__proto__") as [v|]; simpl.
  - case_guard as Hv; simpl.
    + by destruct Hv as [_ Hv].
    + by destruct (target !! "__proto__").
  - by destruct (target !! "__proto__").
Qed.

Lemma prop_extend1_None target k :
  prop (extend1 target None) k = prop target k.
Proof. done. Qed.

Example defaults_status :
  prop _defaults "watchChangesStatus" = VStr "There are unsaved changes on this page".
Proof. vm_compute. reflexivity. Qed.

Lemma extend1_None target : extend1 target None = target.
Proof. done. Qed.

(** ** The monad *)

Lemma bind_inr {A B} (m : M A) (k : A → M B) st st' a :
  m st = (st', inr a) → bind m k st = k a st'.
Proof. unfold bind. by intros ->. Qed.

Lemma bind_inl {A B} (m : M A) (k : A → M B) st st' e :
  m st = (st', inl e) → bind m k st = (st', inl e).
Proof. unfold bind. by intros ->. Qed.

Lemma exec_bind {A B} (m : M A) (k : A → M B) st :
  exec (bind m k) st =
  match outcome m st with
  | inr a => exec (k a) (exec m st)
  | inl _ => exec m st
  end.
Proof. unfold exec, outcome, bind. by destruct (m st) as [st' [e|a]]. Qed.

Lemma preserves_bind {A B} P (m : M A) (k : A → M B) :
  preserves P m → (∀ a, preserves P (k a)) → preserves P (bind m k).
Proof.
  intros Hm Hk st HP. rewrite exec_bind.
  destruct (outcome m st); [by apply Hm | apply Hk; by apply Hm].
Qed.

Lemma preserves_ret {A} P (a : A) : preserves P (ret a).
Proof. by intros st. Qed.

Lemma preserves_throw {A} P e : preserves P (@throw A e).
Proof. by intros st. Qed.

Lemma preserves_get_this P : preserves P get_this.
Proof. by intros st. Qed.

Lemma preserves_get_win P : preserves P get_win.
Proof. by intros st. Qed.

Create HintDb pres.

(** ** Method equations on an initialised session *)

Lemma initialised_inv s :
  initialised s = true →
  options s = Some Ref_defaults ∧
  ∃ note saved sel,
    statusNote s = Some note ∧ savedChanges s = Some saved ∧
    listeners s = [ {| click_selector := sel;
                       closure_options := Shared Ref_defaults |} ].
Proof.
  unfold initialised. destruct s as [hc ie sc dop op sn sv ls]; simpl.
  destruct op as [[]|]; [|done].
  destruct sn as [note|]; [|done]. destruct sv as [saved|]; [|done].
  destruct ls as [|[sel [[]|o]] [|l ls]]; try done.
  intros _. split; [done|]. by exists note, saved, sel.
Qed.

Lemma call_fun f s w :
  call (VFun f) {| this := s; win := w |} =
  ({| this := s; win := log_call f w |}, inr ()).
Proof. done. Qed.

Lemma this_options_ok s w :
  options s = Some Ref_defaults →
  this_options {| this := s; win := w |} =
  ({| this := s; win := w |}, inr (defaults_obj w)).
Proof. intros H. unfold this_options, bind, get_this. simpl. by rewrite H. Qed.

Lemma setAlert_ok s w f :
  options s = Some Ref_defaults →
  prop (defaults_obj w) "onSetAlert" = VFun f →
  setAlert None {| this := s; win := w |} =
  ({| this := s; win := arm (log_call f w) |}, inr ()).
Proof.
  intros Ho Hf. destruct w as [dobj obu d cl]. simpl in *.
  unfold setAlert, extend_this_options, deref, bind, get_this, get_win,
    modify_win, ret. simpl.
  rewrite Ho. simpl. rewrite extend1_None, Hf. simpl.
  unfold arm. simpl. by destruct obu.
Qed.

Lemma defaults_obj_arm w : defaults_obj (arm w) = defaults_obj w.
Proof. unfold arm. by destruct (onbeforeunload w). Qed.

Lemma dom_arm w : dom (arm w) = dom w.
Proof. unfold arm. by destruct (onbeforeunload w). Qed.

Lemma calls_arm w : calls (arm w) = calls w.
Proof. unfold arm. by destruct (onbeforeunload w). Qed.

Lemma armed_arm w : armed (arm w) = true.
Proof. unfold arm, armed. by destruct (onbeforeunload w) eqn:H; simpl; rewrite ?H. Qed.

Lemma unsetAlert_ok s w g :
  options s = Some Ref_defaults →
  prop (defaults_obj w) "onUnsetAlert" = VFun g →
  unsetAlert {| this := s; win := w |} =
  ({| this := s; win := set_onbeforeunload None (log_call g w) |}, inr ()).
Proof.
  intros Ho Hg. unfold unsetAlert.
  rewrite (bind_inr _ _ _ _ _ (this_options_ok s w Ho)).
  rewrite Hg. done.
Qed.

Lemma updateStatusNote_dirty s w f note saved :
  options s = Some Ref_defaults →
  statusNote s = Some note → savedChanges s = Some saved →
  hasChanges s = true →
  prop (defaults_obj w) "onSetAlert" = VFun f →
  updateStatusNote VUndefined {| this := s; win := w |} =
  ({| this := s;
      win := arm (log_call f
               (set_dom (present_dirty (prop (defaults_obj w) "watchChangesStatus")
                           note saved (dom w)) w)) |}, inr ()).
Proof.
  intros Ho Hn Hs Hc Hf. unfold updateStatusNote. simpl.
  rewrite (bind_inr _ _ _ _ _ (bind_inr _ _ _ _ _ (this_options_ok s w Ho))).
  unfold bind at 1. simpl. rewrite Hc.
  unfold this_statusNote, hideSavedChangesMessage, this_savedChanges,
    bind, get_this, modify_win, ret. simpl. rewrite Hn. simpl. rewrite Hs. simpl.
  rewrite (setAlert_ok _ _ f) by done. destruct w; done.
Qed.

Lemma updateStatusNote_clean s w g note saved :
  options s = Some Ref_defaults →
  statusNote s = Some note → savedChanges s = Some saved →
  hasChanges s = false →
  prop (defaults_obj w) "onUnsetAlert" = VFun g →
  updateStatusNote VUndefined {| this := s; win := w |} =
  ({| this := s;
      win := set_onbeforeunload None (log_call g
               (set_dom (present_clean note saved (dom w)) w)) |}, inr ()).
Proof.
  intros Ho Hn Hs Hc Hg. unfold updateStatusNote. simpl.
  rewrite (bind_inr _ _ _ _ _ (bind_inr _ _ _ _ _ (this_options_ok s w Ho))).
  unfold bind at 1. simpl. rewrite Hc.
  unfold this_statusNote, showSavedChangesMessage, this_savedChanges,
    bind, get_this, modify_win, ret. simpl. rewrite Hn. simpl. rewrite Hs. simpl.
  rewrite (unsetAlert_ok _ _ g) by done. destruct w; done.
Qed.

(** ** jQuery set operations *)

Lemma jq_each_lookup f els (d : gmap nat Node) el :
  ∃ k, jq_each f els d !! el = Nat.iter k f <$> d !! el ∧ (el ∈ els → 0 < k).
Proof.
  unfold jq_each. induction els as [|a els [k [IH1 IH2]]]; simpl.
  - exists 0. split; [by destruct (d !! el) | by intros ?%elem_of_nil].
  - rewrite lookup_alter. case_decide as Ha.
    + subst a. exists (S k). split; [|lia].
      rewrite IH1. simpl. by destruct (d !! el).
    + exists k. split; [done|]. intros [?|?]%elem_of_cons; [congruence|auto].
Qed.

(** A property that [f] establishes holds of every node of the set. *)
Lemma jq_each_establish (Q : Node → Prop) f els d el n :
  (∀ x, Q (f x)) → el ∈ els → jq_each f els d !! el = Some n → Q n.
Proof.
  intros HQ Hin. destruct (jq_each_lookup f els d el) as [k [-> Hk]].
  destruct (Hk Hin) as [|k']; simpl;
    destruct (d !! el); simpl; intros [= <-]; apply HQ.
Qed.

(** A property that [f] maintains carries over from the old node. *)
Lemma jq_each_keep (Q : Node → Prop) f els d el n :
  (∀ x, Q x → Q (f x)) → jq_each f els d !! el = Some n →
  ∃ n0, d !! el = Some n0 ∧ (Q n0 → Q n).
Proof.
  intros HQ. destruct (jq_each_lookup f els d el) as [k [-> _]].
  destruct (d !! el) as [n0|]; simpl; intros [= <-].
  exists n0. split; [done|]. induction k; simpl; auto.
Qed.


Lemma present_dirty_spec v note saved d :
  is_undefined v = false →
  dirty_presented v note saved (present_dirty v note saved d).
Proof.
  intros Hv. unfold present_dirty, jq_text. rewrite Hv. split.
  - intros el n Hin Hn.
    apply (jq_each_keep (λ x, text x = v ∧ "has-changes" ∈ classes x)) in Hn
      as [n2 [Hn2 Hk]];
      [|intros x [? ?]; simpl; split; [done|by apply elem_of_union_r]].
    apply Hk. split.
    + apply (jq_each_keep (λ x, text x = v)) in Hn2 as [n1 [Hn1 Hk1]]; [|done].
      apply Hk1.
      eapply (jq_each_establish (λ x, text x = v)); [|exact Hin|exact Hn1].
      done.
    + eapply (jq_each_establish (λ x, "has-changes" ∈ classes x));
        [|exact Hin|exact Hn2].
      intros x. simpl. by apply elem_of_union_l, elem_of_singleton.
  - intros el n Hin Hn.
    eapply (jq_each_establish (λ x, "hidden" ∈ classes x)); [|exact Hin|exact Hn].
    intros x. simpl. by apply elem_of_union_l, elem_of_singleton.
Qed.

Lemma present_clean_spec note saved d :
  clean_presented note saved (present_clean note saved d).
Proof.
  unfold present_clean. split.
  - intros el n Hin Hn.
    apply (jq_each_keep (λ x, "has-changes" ∉ classes x)) in Hn
      as [n1 [Hn1 Hk]]; [|by intros x ? [? _]%elem_of_difference].
    apply Hk.
    eapply (jq_each_establish (λ x, "has-changes" ∉ classes x));
      [|exact Hin|exact Hn1].
    intros x [_ Hx]%elem_of_difference. by apply Hx, elem_of_singleton.
  - intros el n Hin Hn.
    eapply (jq_each_establish (λ x, "hidden" ∉ classes x)); [|exact Hin|exact Hn].
    intros x [_ Hx]%elem_of_difference. by apply Hx, elem_of_singleton.
Qed.

Section Properties.

Variable matches : gmap nat Node → nat → Value → bool.
Variable jq : gmap nat Node → Value → list nat.
Variable jqCheck : gmap nat Node → JqArg → list nat.

(** [util.jqCheck] hands an existing jQuery set back unchanged. *)
Hypothesis jqCheck_jq : ∀ d els, jqCheck d (ArgJq els) = els.

Lemma checkForException_ok s w t :
  options s = Some Ref_defaults →
  let ex := jq_is matches (dom w) [t]
              (prop (defaults_obj w) "watchChangesExceptions") in
  checkForException matches jqCheck (ArgJq [t]) {| this := s; win := w |} =
  ({| this := after_check ex s; win := w |}, inr ex).
Proof.
  intros Ho ex. unfold checkForException.
  unfold bind at 1. simpl.
  rewrite (bind_inr _ _ _ _ _ (this_options_ok s w Ho)).
  rewrite jqCheck_jq. simpl. fold ex.
  unfold bind, modify_this, get_this, ret, after_check. simpl.
  by destruct ex.
Qed.

(** The keyup/change handler on a field that is not ignored, in its three
    cases: a non-exception field; an exception field while dirty; an
    exception field while clean. *)
Lemma change_handler_plain s w t e f note saved :
  options s = Some Ref_defaults →
  statusNote s = Some note → savedChanges s = Some saved →
  prop (defaults_obj w) "onSetAlert" = VFun f →
  target e = t →
  jq_is matches (dom w) [t] (prop (defaults_obj w) "watchChangesIgnored") = false →
  jq_is matches (dom w) [t] (prop (defaults_obj w) "watchChangesExceptions") = false →
  change_handler matches jqCheck (Shared Ref_defaults) e {| this := s; win := w |} =
  ({| this := set_hasChanges true (set_isException false s);
      win := arm (log_call f (arm (log_call f
               (set_dom (present_dirty (prop (defaults_obj w) "watchChangesStatus")
                           note saved (dom w)) w)))) |}, inr e).
Proof.
  intros Ho Hn Hs Hf <- Hig Hex. unfold change_handler.
  unfold bind at 1. simpl. unfold bind at 1. simpl. rewrite Hig.
  erewrite bind_inr by (by apply checkForException_ok).
  rewrite Hex. unfold after_check, status_and_guard.
  erewrite (bind_inr (bind _ _)); cycle 1.
  { erewrite bind_inr by (by apply (updateStatusNote_dirty _ w f note saved)).
    unfold bind at 1. simpl.
    apply setAlert_ok; [done | by rewrite defaults_obj_arm]. }
  done.
Qed.

Lemma change_handler_exception_dirty s w t e f g note saved :
  options s = Some Ref_defaults →
  statusNote s = Some note → savedChanges s = Some saved →
  hasChanges s = true →
  prop (defaults_obj w) "onSetAlert" = VFun f →
  prop (defaults_obj w) "onUnsetAlert" = VFun g →
  target e = t →
  jq_is matches (dom w) [t] (prop (defaults_obj w) "watchChangesIgnored") = false →
  jq_is matches (dom w) [t] (prop (defaults_obj w) "watchChangesExceptions") = true →
  change_handler matches jqCheck (Shared Ref_defaults) e {| this := s; win := w |} =
  ({| this := set_isException true s;
      win := set_onbeforeunload None (log_call g (arm (log_call f
               (set_dom (present_dirty (prop (defaults_obj w) "watchChangesStatus")
                           note saved (dom w)) w)))) |}, inr e).
Proof.
  intros Ho Hn Hs Hc Hf Hg <- Hig Hex. unfold change_handler.
  unfold bind at 1. simpl. unfold bind at 1. simpl. rewrite Hig.
  erewrite bind_inr by (by apply checkForException_ok).
  rewrite Hex. unfold after_check, status_and_guard.
  erewrite (bind_inr (bind _ _)); cycle 1.
  { erewrite bind_inr by (by apply (updateStatusNote_dirty _ w f note saved)).
    unfold bind at 1. simpl. rewrite ?Hc. simpl.
    apply unsetAlert_ok; [done | by rewrite defaults_obj_arm]. }
  done.
Qed.

Lemma change_handler_exception_clean s w t e g note saved :
  options s = Some Ref_defaults →
  statusNote s = Some note → savedChanges s = Some saved →
  hasChanges s = false →
  prop (defaults_obj w) "onUnsetAlert" = VFun g →
  target e = t →
  jq_is matches (dom w) [t] (prop (defaults_obj w) "watchChangesIgnored") = false →
  jq_is matches (dom w) [t] (prop (defaults_obj w) "watchChangesExceptions") = true →
  change_handler matches jqCheck (Shared Ref_defaults) e {| this := s; win := w |} =
  ({| this := set_isException true s;
      win := set_onbeforeunload None (log_call g (set_onbeforeunload None (log_call g
               (set_dom (present_clean note saved (dom w)) w)))) |}, inr e).
Proof.
  intros Ho Hn Hs Hc Hg <- Hig Hex. unfold change_handler.
  unfold bind at 1. simpl. unfold bind at 1. simpl. rewrite Hig.
  erewrite bind_inr by (by apply checkForException_ok).
  rewrite Hex. unfold after_check, status_and_guard.
  erewrite (bind_inr (bind _ _)); cycle 1.
  { erewrite bind_inr by (by apply (updateStatusNote_clean _ w g note saved)).
    unfold bind at 1. simpl. rewrite ?Hc. simpl.
    by apply unsetAlert_ok. }
  done.
Qed.

(** With one pair of handlers bound, an event is handled by that pair. *)
Lemma onFieldMutation_single s w t sel st' :
  listeners s = [ {| click_selector := sel;
                     closure_options := Shared Ref_defaults |} ] →
  let e := {| target := t; immediatePropagationStopped := false |} in
  change_handler matches jqCheck (Shared Ref_defaults) e
    {| this := s; win := w |} = (st', inr e) →
  onFieldMutation matches jqCheck t {| this := s; win := w |} = (st', inr e).
Proof.
  intros Hl e He. unfold onFieldMutation. unfold bind at 1. simpl.
  rewrite Hl. simpl. fold e. by rewrite (bind_inr _ _ _ _ _ He).
Qed.

Lemma onSubmitIntent_single s w t sel g :
  options s = Some Ref_defaults →
  listeners s = [ {| click_selector := sel;
                     closure_options := Shared Ref_defaults |} ] →
  prop (defaults_obj w) "onUnsetAlert" = VFun g →
  onSubmitIntent t {| this := s; win := w |} =
  ({| this := s; win := set_onbeforeunload None (log_call g w) |},
   inr {| target := t; immediatePropagationStopped := true |}).
Proof.
  intros Ho Hl Hg. unfold onSubmitIntent. unfold bind at 1. simpl.
  rewrite Hl. simpl. unfold click_handler. simpl.
  erewrite (bind_inr (bind _ _)); cycle 1.
  { erewrite bind_inr by (by apply (unsetAlert_ok _ _ g)). done. }
  done.
Qed.

(** ** What no event and no [setDirty(true)] can undo

    Every method, run without an options argument, stays inside any
    [framed] set of states; so do the handlers and event delivery. *)
Section Framed.

Variable P : St → Prop.
Hypothesis HP : framed P.

Lemma preserves_modify_this f :
  (∀ s, hasChanges s = true → hasChanges (f s) = true) →
  preserves P (modify_this f).
Proof. intros Hf [s w] H. apply (HP s w); auto. Qed.

Lemma preserves_modify_win g :
  (∀ w, defaults_obj (g w) = defaults_obj w) →
  preserves P (modify_win g).
Proof. intros Hg [s w] H. apply (HP s w); auto. Qed.

Ltac pres :=
  repeat first
    [ solve [auto with pres nocore]
    | progress cbv zeta
    | apply preserves_ret | apply preserves_throw
    | apply preserves_get_this | apply preserves_get_win
    | apply preserves_bind; [|intros ?]
    | apply preserves_modify_this; by intros []
    | apply preserves_modify_win; by intros []
    | assumption
    | match goal with
      | |- preserves _ (match ?x with _ => _ end) => destruct x
      end ].

Lemma preserves_call v : preserves P (call v).
Proof. unfold call. pres. Qed.

Lemma preserves_deref r : preserves P (deref r).
Proof. unfold deref. pres. Qed.

Lemma preserves_this_options : preserves P this_options.
Proof. unfold this_options. pres. Qed.

Lemma preserves_this_statusNote : preserves P this_statusNote.
Proof. unfold this_statusNote. pres. Qed.

Lemma preserves_this_savedChanges : preserves P this_savedChanges.
Proof. unfold this_savedChanges. pres. Qed.

Lemma preserves_extend_this_options :
  preserves P (extend_this_options None).
Proof. unfold extend_this_options. pres. Qed.

Local Hint Resolve preserves_call preserves_deref preserves_this_options
  preserves_this_statusNote preserves_this_savedChanges
  preserves_extend_this_options : pres.

Lemma preserves_setAlert : preserves P (setAlert None).
Proof. unfold setAlert. pres; auto with pres. Qed.

Lemma preserves_unsetAlert : preserves P unsetAlert.
Proof. unfold unsetAlert. pres; auto with pres. Qed.

Lemma preserves_hideSavedChangesMessage : preserves P hideSavedChangesMessage.
Proof. unfold hideSavedChangesMessage. pres; auto with pres. Qed.

Lemma preserves_showSavedChangesMessage : preserves P showSavedChangesMessage.
Proof. unfold showSavedChangesMessage. pres; auto with pres. Qed.

Local Hint Resolve preserves_setAlert preserves_unsetAlert
  preserves_hideSavedChangesMessage preserves_showSavedChangesMessage : pres.

Lemma preserves_updateStatusNote v : preserves P (updateStatusNote v).
Proof. unfold updateStatusNote. pres; auto with pres. Qed.

Local Hint Resolve preserves_updateStatusNote : pres.

Lemma preserves_setDirty_true : preserves P (setDirty true).
Proof. unfold setDirty, updateHasChanges. pres; auto with pres. Qed.

Lemma preserves_click_handler e : preserves P (click_handler e).
Proof. unfold click_handler. pres; auto with pres. Qed.

Lemma preserves_status_and_guard : preserves P status_and_guard.
Proof. unfold status_and_guard. pres; auto with pres. Qed.

Lemma preserves_checkForException x :
  preserves P (checkForException matches jqCheck x).
Proof. unfold checkForException. pres; auto with pres. Qed.

Local Hint Resolve preserves_status_and_guard preserves_checkForException : pres.

Lemma preserves_change_handler r e :
  preserves P (change_handler matches jqCheck r e).
Proof. unfold change_handler. pres; auto with pres. Qed.

Lemma preserves_dispatch hs e :
  (∀ h e', h ∈ hs → preserves P (h e')) → preserves P (dispatch hs e).
Proof.
  revert e. induction hs as [|h hs IH]; intros e Hh; simpl; [pres|].
  apply preserves_bind; [apply Hh; left|].
  intros e'. destruct (immediatePropagationStopped e'); [pres|].
  apply IH. intros h' e'' Hin. apply Hh. by right.
Qed.

Lemma preserves_onSubmitIntent t : preserves P (onSubmitIntent t).
Proof.
  unfold onSubmitIntent. pres; apply preserves_dispatch.
  intros h e' [l [-> _]]%list_elem_of_fmap. apply preserves_click_handler.
Qed.

Lemma preserves_onFieldMutation t :
  preserves P (onFieldMutation matches jqCheck t).
Proof.
  unfold onFieldMutation. pres; apply preserves_dispatch.
  intros h e' [l [-> _]]%list_elem_of_fmap. apply preserves_change_handler.
Qed.

Lemma step_framed op st :
  op ≠ SetDirty false → P st → P (step matches jqCheck op st).
Proof.
  intros Hop H. destruct op as [t|t|[]]; simpl.
  - by apply preserves_onFieldMutation.
  - by apply preserves_onSubmitIntent.
  - by apply preserves_setDirty_true.
  - done.
Qed.

Lemma run_ops_framed ops st :
  Forall (λ op, op ≠ SetDirty false) ops →
  P st → P (run_ops matches jqCheck ops st).
Proof.
  intros Hops. revert st. induction Hops as [|op ops Hop _ IH]; intros st H.
  - done.
  - simpl. apply IH. by apply step_framed.
Qed.

End Framed.

Lemma framed_hasChanges :
  framed (λ st, hasChanges (this st) = true).
Proof. intros s w s' w' H Hs _. simpl in *. auto. Qed.

Lemma framed_config o :
  framed (λ st, defaults_obj (win st) = o).
Proof. intros s w s' w' H _ Hw. simpl in *. congruence. Qed.

(** ** The constructor *)

Lemma construct_empty scope_arg opts w :
  jqCheck (dom w) (ArgValue scope_arg) = [] →
  construct jq jqCheck scope_arg opts w =
  ({| this := new_object; win := w |}, inr ()).
Proof.
  intros He. unfold construct, watchChanges, bind, modify_this, get_win,
    get_this, ret. simpl. by rewrite He.
Qed.

Lemma construct_nonempty scope_arg opts w el els :
  jqCheck (dom w) (ArgValue scope_arg) = el :: els →
  let o := extend_all (defaults_obj w) [opts; jq_data (dom w) (el :: els)] in
  construct jq jqCheck scope_arg opts w =
  ({| this :=
        {| hasChanges := false; isException := false; scope := el :: els;
           dataOptions := jq_data (dom w) (el :: els);
           options := Some Ref_defaults;
           statusNote := Some (jq (dom w) (prop o "watchChangesStatusElement"));
           savedChanges := Some (jq (dom w) (prop o "watchChangesSavedElement"));
           listeners := [ {| click_selector := prop o "watchChangesSubmits";
                             closure_options := Shared Ref_defaults |} ] |};
      win := set_defaults_obj o w |}, inr ()).
Proof.
  intros He o. destruct w as [dobj obu d cl]. simpl in *.
  unfold construct, watchChanges, init, extend_this_options, this_options,
    deref, bind, modify_this, modify_win, get_win, get_this, ret.
  simpl. rewrite He. simpl. by rewrite extend1_None.
Qed.

(** The constructor leaves a session on a non-empty region initialised. *)
Lemma construct_initialised scope_arg opts w :
  jqCheck (dom w) (ArgValue scope_arg) ≠ [] →
  initialised (this (construct jq jqCheck scope_arg opts w).1) = true ∧
  (construct jq jqCheck scope_arg opts w).2 = inr ().
Proof.
  intros Hne. destruct (jqCheck (dom w) (ArgValue scope_arg)) as [|el els] eqn:He;
    [done|].
  by rewrite (construct_nonempty _ _ _ _ _ He).
Qed.

(** Which value an option gets from one construction: the region's data
    attribute if it has one, else the options argument's entry if it has
    one, else whatever the shared object held before. *)
Lemma resolved_option_precedence scope_arg opts w el els k :
  k ≠ "__proto__" →
  jqCheck (dom w) (ArgValue scope_arg) = el :: els →
  let dat := default ∅ (data <$> dom w !! el) in
  let given := default ∅ opts in
  prop (defaults_obj (win (construct jq jqCheck scope_arg opts w).1)) k =
  if negb (is_undefined (prop dat k)) then prop dat k
  else if negb (is_undefined (prop given k)) then prop given k
  else prop (defaults_obj w) k.
Proof.
  intros Hk He dat given. rewrite (construct_nonempty _ _ _ _ _ He). simpl.
  fold dat. rewrite prop_extend1_Some by done.
  destruct (is_undefined (prop dat k)); simpl; [|done].
  subst given. destruct opts as [o|]; simpl.
  - rewrite prop_extend1_Some by done. by destruct (is_undefined (prop o k)).
  - done.
Qed.

(** On a freshly loaded module the last alternative is the default. *)
Lemma first_construction_precedence scope_arg opts w el els k :
  k ≠ "__proto__" →
  defaults_obj w = _defaults →
  jqCheck (dom w) (ArgValue scope_arg) = el :: els →
  let dat := default ∅ (data <$> dom w !! el) in
  let given := default ∅ opts in
  prop (defaults_obj (win (construct jq jqCheck scope_arg opts w).1)) k =
  if negb (is_undefined (prop dat k)) then prop dat k
  else if negb (is_undefined (prop given k)) then prop given k
  else prop _defaults k.
Proof.
  intros Hk Hd He. rewrite <- Hd.
  by apply (resolved_option_precedence _ _ _ _ els).
Qed.

(** No event and no [setDirty] writes to the shared options object. *)
Lemma ops_keep_config op st :
  defaults_obj (win (step matches jqCheck op st)) = defaults_obj (win st).
Proof.
  pose proof (framed_config (defaults_obj (win st))) as HF.
  destruct op as [t|t|b]; simpl.
  - by apply (preserves_onFieldMutation _ HF).
  - by apply (preserves_onSubmitIntent _ HF).
  - unfold setDirty, updateHasChanges. rewrite exec_bind. simpl.
    by apply (preserves_updateStatusNote _ HF).
Qed.

Lemma change_handler_sets_hasChanges s w e :
  options s = Some Ref_defaults →
  jq_is matches (dom w) [target e]
    (prop (defaults_obj w) "watchChangesIgnored") = false →
  jq_is matches (dom w) [target e]
    (prop (defaults_obj w) "watchChangesExceptions") = false →
  hasChanges (this (exec (change_handler matches jqCheck (Shared Ref_defaults) e)
                      {| this := s; win := w |})) = true.
Proof.
  intros Ho Hig Hex. unfold exec, change_handler.
  unfold bind at 1. simpl. unfold bind at 1. simpl. rewrite Hig.
  erewrite bind_inr by (by apply checkForException_ok).
  rewrite Hex. unfold after_check.
  apply (preserves_bind (λ st, hasChanges (this st) = true)
           status_and_guard (λ _, ret e)).
  - apply preserves_status_and_guard, framed_hasChanges.
  - intros _. apply preserves_ret.
  - done.
Qed.

(** ** The claims *)

(** C1 (as amended).  On an initialised session whose callbacks are
    functions: after a mutation event on a field that is not ignored the
    guard is armed exactly when [hasChanges && !isException] holds of the
    updated state; after [setDirty(b)] the guard is armed exactly when [b]
    is true, whatever [isException] still says, and [isException] is
    left as it was. *)
Theorem C1_guard_after_update (st : St) (f g : Fn) :
  initialised (this st) = true →
  prop (defaults_obj (win st)) "onSetAlert" = VFun f →
  prop (defaults_obj (win st)) "onUnsetAlert" = VFun g →
  (∀ t,
     jq_is matches (dom (win st)) [t]
       (prop (defaults_obj (win st)) "watchChangesIgnored") = false →
     outcome (onFieldMutation matches jqCheck t) st =
       inr {| target := t; immediatePropagationStopped := false |} ∧
     armed (win (exec (onFieldMutation matches jqCheck t) st)) =
       hasChanges (this (exec (onFieldMutation matches jqCheck t) st)) &&
       negb (isException (this (exec (onFieldMutation matches jqCheck t) st)))) ∧
  (∀ b,
     outcome (setDirty b) st = inr () ∧
     hasChanges (this (exec (setDirty b) st)) = b ∧
     isException (this (exec (setDirty b) st)) = isException (this st) ∧
     armed (win (exec (setDirty b) st)) = b).
Proof.
  intros Hi Hf Hg. destruct st as [s w]. simpl in *.
  destruct (initialised_inv s Hi) as [Ho [note [saved [sel [Hn [Hs Hl]]]]]].
  split.
  - intros t Hig. unfold exec, outcome.
    destruct (jq_is matches (dom w) [t]
                (prop (defaults_obj w) "watchChangesExceptions")) eqn:Hex.
    + destruct (hasChanges s) eqn:Hc.
      * rewrite (onFieldMutation_single s w t sel _ Hl
          (change_handler_exception_dirty s w t
             {| target := t; immediatePropagationStopped := false |} f g note saved
             Ho Hn Hs Hc Hf Hg eq_refl Hig Hex)).
        simpl. by rewrite Hc.
      * rewrite (onFieldMutation_single s w t sel _ Hl
          (change_handler_exception_clean s w t
             {| target := t; immediatePropagationStopped := false |} g note saved
             Ho Hn Hs Hc Hg eq_refl Hig Hex)).
        simpl. by rewrite Hc.
    + rewrite (onFieldMutation_single s w t sel _ Hl
        (change_handler_plain s w t
           {| target := t; immediatePropagationStopped := false |} f note saved
           Ho Hn Hs Hf eq_refl Hig Hex)).
      simpl. by rewrite armed_arm.
  - intros b. unfold exec, outcome, setDirty, updateHasChanges.
    unfold bind, modify_this. simpl. destruct b.
    + rewrite (updateStatusNote_dirty _ w f note saved) by done.
      simpl. by rewrite armed_arm.
    + by rewrite (updateStatusNote_clean _ w g note saved) by done.
Qed.

(** C2.  Once a mutation event on a field that is neither ignored nor an
    exception has reached an initialised session, [hasChanges] is true,
    and it is still true after any further sequence of field mutations
    (on any targets), submit intents and [setDirty(true)] calls: only
    [setDirty(false)] can clear it. *)
Theorem C2_hasChanges_monotone (st : St) (t : nat) (ops : list Op) :
  initialised (this st) = true →
  jq_is matches (dom (win st)) [t]
    (prop (defaults_obj (win st)) "watchChangesIgnored") = false →
  jq_is matches (dom (win st)) [t]
    (prop (defaults_obj (win st)) "watchChangesExceptions") = false →
  Forall (λ op, op ≠ SetDirty false) ops →
  hasChanges (this (step matches jqCheck (FieldMutation t) st)) = true ∧
  hasChanges (this (run_ops matches jqCheck ops
                      (step matches jqCheck (FieldMutation t) st))) = true.
Proof.
  intros Hi Hig Hex Hops. destruct st as [s w]. simpl in *.
  destruct (initialised_inv s Hi) as [Ho [note [saved [sel [Hn [Hs Hl]]]]]].
  assert (hasChanges (this (exec (onFieldMutation matches jqCheck t)
                              {| this := s; win := w |})) = true) as H1.
  { pose proof (change_handler_sets_hasChanges s w
                  {| target := t; immediatePropagationStopped := false |}
                  Ho Hig Hex) as Hh.
    unfold exec in *. unfold onFieldMutation. unfold bind at 1. simpl.
    rewrite Hl. simpl. unfold bind at 1.
    destruct (change_handler matches jqCheck (Shared Ref_defaults) _ _)
      as [st1 [er|e']]; simpl in *; [done|].
    by destruct (immediatePropagationStopped e'). }
  split; [done|].
  by apply (run_ops_framed _ framed_hasChanges).
Qed.

(** C3.  Whatever [hasChanges] and [isException] are, a submit-intent
    click on an initialised session marks the event as stopped
    ([stopImmediatePropagation]), leaves the guard disarmed, calls
    [onUnsetAlert] once, and changes nothing else: the session fields, the
    DOM (hence the status shown) and the options object are as before. *)
Theorem C3_submit_intent_disarms (st : St) (t : nat) (g : Fn) :
  initialised (this st) = true →
  prop (defaults_obj (win st)) "onUnsetAlert" = VFun g →
  outcome (onSubmitIntent t) st =
    inr {| target := t; immediatePropagationStopped := true |} ∧
  armed (win (exec (onSubmitIntent t) st)) = false ∧
  this (exec (onSubmitIntent t) st) = this st ∧
  dom (win (exec (onSubmitIntent t) st)) = dom (win st) ∧
  defaults_obj (win (exec (onSubmitIntent t) st)) = defaults_obj (win st) ∧
  calls (win (exec (onSubmitIntent t) st)) = (calls (win st) ++ [Called g])%list.
Proof.
  intros Hi Hg. destruct st as [s w]. simpl in *.
  destruct (initialised_inv s Hi) as [Ho [note [saved [sel [Hn [Hs Hl]]]]]].
  unfold exec, outcome.
  by rewrite (onSubmitIntent_single s w t sel g Ho Hl Hg).
Qed.

Lemma change_handler_ignored r e st :
  jq_is matches (dom (win st)) [target e]
    (prop (contents (win st) r) "watchChangesIgnored") = true →
  change_handler matches jqCheck r e st = (st, inr e).
Proof.
  intros Hig. unfold change_handler, deref, bind, get_win, ret. simpl.
  by rewrite Hig.
Qed.

(** C4.  A keyup/change event whose target matches the ignored selector
    of the session's handlers changes nothing at all: the whole state
    (session fields, guard, DOM, options, callback log) is returned as it
    was, and nothing is thrown.  This holds in every state. *)
Theorem C4_ignored_target_inert (st : St) (t : nat) :
  Forall (λ l, jq_is matches (dom (win st)) [t]
                 (prop (contents (win st) (closure_options l))
                    "watchChangesIgnored") = true)
         (listeners (this st)) →
  onFieldMutation matches jqCheck t st =
  (st, inr {| target := t; immediatePropagationStopped := false |}).
Proof.
  intros Hall. unfold onFieldMutation. unfold bind at 1. simpl.
  induction Hall as [|l ls Hl _ IH]; simpl; [done|].
  rewrite (bind_inr _ _ _ _ _
    (change_handler_ignored (closure_options l)
       {| target := t; immediatePropagationStopped := false |} st Hl)).
  simpl. exact IH.
Qed.

(** C5 (as amended).  When the region selector resolves to no element,
    construction returns normally with a session that has no options and
    no handlers and leaves the page untouched; field-mutation and
    submit-intent events then find no handler, so they change nothing and
    throw nothing. *)
Theorem C5_empty_region_inert (scope_arg : Value) (opts : option Obj) (w : World) :
  jqCheck (dom w) (ArgValue scope_arg) = [] →
  construct jq jqCheck scope_arg opts w =
    ({| this := new_object; win := w |}, inr ()) ∧
  ∀ t,
    onFieldMutation matches jqCheck t {| this := new_object; win := w |} =
      ({| this := new_object; win := w |},
       inr {| target := t; immediatePropagationStopped := false |}) ∧
    onSubmitIntent t {| this := new_object; win := w |} =
      ({| this := new_object; win := w |},
       inr {| target := t; immediatePropagationStopped := false |}).
Proof.
  intros He. split; [by apply construct_empty|]. by intros t.
Qed.

(** C7 (as amended).  [setDirty(b)] assigns [hasChanges = b] and then runs
    the status update only (step 3; the branch of step 4 is not run, so
    [isException] plays no part).  With [b] true every status element
    shows the status text with the [has-changes] class, every
    saved-message element is hidden and the guard is armed; with [b]
    false the class is removed, the saved message is shown and the guard
    is disarmed. *)
Theorem C7_setDirty_presentation (st : St) (b : bool) (f g : Fn)
    (note saved : list nat) :
  initialised (this st) = true →
  statusNote (this st) = Some note →
  savedChanges (this st) = Some saved →
  prop (defaults_obj (win st)) "onSetAlert" = VFun f →
  prop (defaults_obj (win st)) "onUnsetAlert" = VFun g →
  is_undefined (prop (defaults_obj (win st)) "watchChangesStatus") = false →
  outcome (setDirty b) st = inr () ∧
  hasChanges (this (exec (setDirty b) st)) = b ∧
  isException (this (exec (setDirty b) st)) = isException (this st) ∧
  if b then
    dirty_presented (prop (defaults_obj (win st)) "watchChangesStatus")
      note saved (dom (win (exec (setDirty b) st))) ∧
    armed (win (exec (setDirty b) st)) = true
  else
    clean_presented note saved (dom (win (exec (setDirty b) st))) ∧
    armed (win (exec (setDirty b) st)) = false.
Proof.
  intros Hi Hn Hs Hf Hg Hv. destruct st as [s w]. simpl in *.
  destruct (initialised_inv s Hi) as [Ho _].
  unfold exec, outcome, setDirty, updateHasChanges.
  unfold bind, modify_this. simpl. destruct b.
  - rewrite (updateStatusNote_dirty _ w f note saved) by done. simpl.
    rewrite armed_arm, dom_arm. simpl.
    refine (conj _ (conj _ (conj _ (conj _ _)))); try done.
    by apply present_dirty_spec.
  - rewrite (updateStatusNote_clean _ w g note saved) by done. simpl.
    refine (conj _ (conj _ (conj _ (conj _ _)))); try done.
    by apply present_clean_spec.
Qed.

(** C9 (as amended).  An arm call while a before-unload handler is already
    installed installs nothing and replaces nothing: the handler in
    [window.onbeforeunload] is the one that was there.  The call is not
    without effect, though.  It writes the entries of its options argument,
    if it has one, into the shared options object, and it invokes the
    [onSetAlert] callback then in force, once; that is all that happens.
    Called without an argument its only effect is that callback.  An
    installed handler that is the watcher's own closure reads the options
    when it fires, so after an arm call with an argument it returns the
    alert message as overridden. *)
Theorem C9_arm_when_armed (st : St) (h : Handler) (opts : option Obj) (f : Fn) :
  options (this st) = Some Ref_defaults →
  onbeforeunload (win st) = Some h →
  prop (extend1 (defaults_obj (win st)) opts) "onSetAlert" = VFun f →
  setAlert opts st =
    ({| this := this st;
        win := log_call f
                 (set_defaults_obj (extend1 (defaults_obj (win st)) opts)
                    (win st)) |}, inr ()) ∧
  onbeforeunload (win (exec (setAlert opts) st)) = Some h ∧
  (opts = None →
   setAlert opts st =
     ({| this := this st; win := log_call f (win st) |}, inr ())) ∧
  (∀ u, prop (extend1 (defaults_obj (win st)) opts) "onUnload" = VFun u →
        outcome (beforeunload_handler (Shared Ref_defaults))
          (exec (setAlert opts) st) =
        inr (prop (extend1 (defaults_obj (win st)) opts) "watchChangesAlert")).
Proof.
  intros Ho Hh Hf. destruct st as [s w]. destruct w as [dobj obu d cl].
  simpl in *. subst obu.
  assert (setAlert opts
            {| this := s;
               win := {| defaults_obj := dobj; onbeforeunload := Some h;
                         dom := d; calls := cl |} |} =
          ({| this := s;
              win := log_call f
                       (set_defaults_obj (extend1 dobj opts)
                          {| defaults_obj := dobj; onbeforeunload := Some h;
                             dom := d; calls := cl |}) |}, inr ())) as Heq.
  { unfold setAlert, extend_this_options, deref, bind, get_this, get_win,
      modify_win, ret. simpl. rewrite Ho. simpl. by rewrite Hf. }
  unfold exec, outcome. rewrite Heq. simpl.
  split; [done|]. split; [done|]. split.
  - by intros ->.
  - intros u Hu.
    unfold beforeunload_handler, deref, bind, get_win, ret. simpl.
    by rewrite Hu.
Qed.


End Properties.

(** * Further properties of the module *)

Lemma prop_empty k : prop ∅ k = VUndefined.
Proof. unfold prop. by rewrite lookup_empty. Qed.

(** ** jQuery set operations, continued *)

Lemma jq_each_lookup_idem f els (d : gmap nat Node) el :
  (∀ x, f (f x) = f x) →
  jq_each f els d !! el = if decide (el ∈ els) then f <$> d !! el else d !! el.
Proof.
  intros Hf. unfold jq_each. induction els as [|a els IH]; cbn [foldr].
  - rewrite decide_False; [done|]. apply not_elem_of_nil.
  - rewrite lookup_alter. destruct (decide (a = el)) as [->|Ha].
    + rewrite IH. rewrite (decide_True (P := el ∈ el :: els)) by left.
      destruct (decide (el ∈ els)); destruct (d !! el); simpl; by rewrite ?Hf.
    + rewrite IH. destruct (decide (el ∈ els)) as [Hin|Hin].
      * by rewrite (decide_True (P := el ∈ a :: els)) by (by right).
      * rewrite (decide_False (P := el ∈ a :: els)); [done|].
        by intros [?|?]%elem_of_cons.
Qed.








Lemma add_class_idem c x : add_class c (add_class c x) = add_class c x.
Proof.
  unfold add_class. simpl. f_equal. by rewrite (assoc_L (∪)), (idemp_L (∪)).
Qed.

Lemma remove_class_idem c x : remove_class c (remove_class c x) = remove_class c x.
Proof.
  unfold remove_class. simpl. f_equal. apply set_eq. intros y.
  rewrite !elem_of_difference. tauto.
Qed.

Lemma set_text_idem v x : set_text v (set_text v x) = set_text v x.
Proof. done. Qed.

Lemma add_class_comm c1 c2 x :
  add_class c1 (add_class c2 x) = add_class c2 (add_class c1 x).
Proof.
  unfold add_class. simpl. f_equal.
  by rewrite !(assoc_L (∪)), (comm_L (∪) {[c1]}).
Qed.

Lemma remove_class_comm c1 c2 x :
  remove_class c1 (remove_class c2 x) = remove_class c2 (remove_class c1 x).
Proof.
  unfold remove_class. simpl. f_equal. apply set_eq. intros y.
  rewrite !elem_of_difference. tauto.
Qed.

Lemma jq_each_idem f els (d : gmap nat Node) :
  (∀ x, f (f x) = f x) →
  jq_each f els (jq_each f els d) = jq_each f els d.
Proof.
  intros Hf. apply map_eq. intros el.
  rewrite !jq_each_lookup_idem by done.
  destruct (decide (el ∈ els)); [|done].
  destruct (d !! el); simpl; by rewrite ?Hf.
Qed.

Lemma jq_each_comm f g els1 els2 (d : gmap nat Node) :
  (∀ x, f (f x) = f x) → (∀ x, g (g x) = g x) →
  (∀ x, f (g x) = g (f x)) →
  jq_each f els1 (jq_each g els2 d) = jq_each g els2 (jq_each f els1 d).
Proof.
  intros Hf Hg Hfg. apply map_eq. intros el.
  rewrite !jq_each_lookup_idem by done.
  destruct (decide (el ∈ els1)), (decide (el ∈ els2)); try done.
  destruct (d !! el); simpl; by rewrite ?Hfg.
Qed.

(** Writing the dirty presentation over itself, or the clean one over
    itself, changes nothing. *)
Lemma present_dirty_idem v note saved d :
  present_dirty v note saved (present_dirty v note saved d) =
  present_dirty v note saved d.
Proof.
  unfold present_dirty, jq_text.
  generalize "has-changes" "hidden". intros c1 c2.
  destruct (is_undefined v).
  - rewrite (jq_each_comm (add_class c1) (add_class c2) note saved)
      by (apply add_class_idem || apply add_class_comm).
    rewrite (jq_each_idem (add_class c2)) by apply add_class_idem.
    by rewrite (jq_each_idem (add_class c1)) by apply add_class_idem.
  - rewrite (jq_each_comm (set_text v) (add_class c2) note saved)
      by (apply add_class_idem || done).
    rewrite (jq_each_comm (add_class c1) (add_class c2) note saved)
      by (apply add_class_idem || apply add_class_comm).
    rewrite (jq_each_idem (add_class c2)) by apply add_class_idem.
    rewrite (jq_each_comm (set_text v) (add_class c1) note note)
      by (apply add_class_idem || done).
    rewrite (jq_each_idem (add_class c1)) by apply add_class_idem.
    by rewrite (jq_each_idem (set_text v)).
Qed.

Lemma present_clean_idem note saved d :
  present_clean note saved (present_clean note saved d) =
  present_clean note saved d.
Proof.
  unfold present_clean.
  generalize "has-changes" "hidden". intros c1 c2.
  rewrite (jq_each_comm (remove_class c1) (remove_class c2) note saved)
    by (apply remove_class_idem || apply remove_class_comm).
  rewrite (jq_each_idem (remove_class c2)) by apply remove_class_idem.
  by rewrite (jq_each_idem (remove_class c1)) by apply remove_class_idem.
Qed.

(** ** [updateStatusNote] with a status argument *)

Lemma updateStatusNote_dirty_with s w f note saved status :
  options s = Some Ref_defaults →
  statusNote s = Some note → savedChanges s = Some saved →
  hasChanges s = true →
  prop (defaults_obj w) "onSetAlert" = VFun f →
  updateStatusNote status {| this := s; win := w |} =
  ({| this := s;
      win := arm (log_call f
               (set_dom (present_dirty
                           (js_or status (prop (defaults_obj w) "watchChangesStatus"))
                           note saved (dom w)) w)) |}, inr ()).
Proof.
  intros Ho Hn Hs Hc Hf. unfold updateStatusNote, js_or.
  destruct (truthy status).
  - unfold bind at 1. simpl. unfold bind at 1. simpl. rewrite Hc.
    unfold this_statusNote, hideSavedChangesMessage, this_savedChanges,
      bind, get_this, modify_win, ret. simpl. rewrite Hn. simpl. rewrite Hs. simpl.
    rewrite (setAlert_ok _ _ f) by done. destruct w; done.
  - rewrite (bind_inr _ _ _ _ _ (bind_inr _ _ _ _ _ (this_options_ok s w Ho))).
    unfold bind at 1. simpl. rewrite Hc.
    unfold this_statusNote, hideSavedChangesMessage, this_savedChanges,
      bind, get_this, modify_win, ret. simpl. rewrite Hn. simpl. rewrite Hs. simpl.
    rewrite (setAlert_ok _ _ f) by done. destruct w; done.
Qed.

(** ** [setAlert] with an options argument *)

Lemma setAlert_with s w o f :
  options s = Some Ref_defaults →
  prop (extend1 (defaults_obj w) (Some o)) "onSetAlert" = VFun f →
  setAlert (Some o) {| this := s; win := w |} =
  ({| this := s;
      win := arm (log_call f
               (set_defaults_obj (extend1 (defaults_obj w) (Some o)) w)) |},
   inr ()).
Proof.
  intros Ho Hf. destruct w as [dobj obu d cl]. simpl in *.
  unfold setAlert, extend_this_options, deref, bind, get_this, get_win,
    modify_win, ret. simpl.
  rewrite Ho. simpl. rewrite Hf. simpl.
  unfold arm. simpl. by destruct obu.
Qed.

Section Further.

Variable matches : gmap nat Node → nat → Value → bool.
Variable jq : gmap nat Node → Value → list nat.
Variable jqCheck : gmap nat Node → JqArg → list nat.

(** [util.jqCheck] hands an existing jQuery set back unchanged. *)
Hypothesis jqCheck_jq : ∀ d els, jqCheck d (ArgJq els) = els.

(** X1.  One construction on a non-empty region resolves every option key
    (recognised or not, ["__proto__"] apart) as follows: the value of the
    region's data attribute if [.data()] has one, else the entry of the
    options argument if it has one that is not [undefined], else the value
    the shared options object held before the call.  No own ["__proto__"]
    entry is created or changed. *)
Theorem X1_option_resolution (scope_arg : Value) (opts : option Obj) (w : World)
    (el : nat) (els : list nat) (k : string) :
  jqCheck (dom w) (ArgValue scope_arg) = el :: els →
  k ≠ "__proto__" →
  ∃ o, config (construct jq jqCheck scope_arg opts w).1 = Some o ∧
       prop o k =
         (if negb (is_undefined (prop (default ∅ (data <$> dom w !! el)) k))
          then prop (default ∅ (data <$> dom w !! el)) k
          else if negb (is_undefined (prop (default ∅ opts) k))
               then prop (default ∅ opts) k
               else prop (defaults_obj w) k) ∧
       o !! "__proto__" = defaults_obj w !! "__proto__".
Proof.
  intros He Hk.
  exists (defaults_obj (win (construct jq jqCheck scope_arg opts w).1)).
  split; [|split].
  - by rewrite (construct_nonempty jq jqCheck _ _ _ _ _ He).
  - by apply (resolved_option_precedence jq jqCheck _ _ _ _ els).
  - rewrite (construct_nonempty jq jqCheck _ _ _ _ _ He). simpl.
    by rewrite !extend1_proto.
Qed.

(** X2.  Constructing a watcher on a non-empty region never throws and
    touches nothing on the page but the shared options object: the DOM,
    [window.onbeforeunload] and the callbacks are left alone.  The session
    starts clean ([hasChanges] and [isException] false), with its status
    and saved-message elements looked up through the resolved selectors and
    one click handler bound with the resolved submit selector. *)
Theorem X2_construction_effects (scope_arg : Value) (opts : option Obj) (w : World) :
  jqCheck (dom w) (ArgValue scope_arg) ≠ [] →
  let st := (construct jq jqCheck scope_arg opts w).1 in
  (construct jq jqCheck scope_arg opts w).2 = inr () ∧
  initialised (this st) = true ∧
  hasChanges (this st) = false ∧ isException (this st) = false ∧
  scope (this st) = jqCheck (dom w) (ArgValue scope_arg) ∧
  statusNote (this st) =
    Some (jq (dom w) (prop (defaults_obj (win st)) "watchChangesStatusElement")) ∧
  savedChanges (this st) =
    Some (jq (dom w) (prop (defaults_obj (win st)) "watchChangesSavedElement")) ∧
  click_selector <$> listeners (this st) =
    [ prop (defaults_obj (win st)) "watchChangesSubmits" ] ∧
  dom (win st) = dom w ∧
  onbeforeunload (win st) = onbeforeunload w ∧
  calls (win st) = calls w.
Proof.
  intros Hne st. subst st.
  destruct (jqCheck (dom w) (ArgValue scope_arg)) as [|el els] eqn:He; [done|].
  rewrite (construct_nonempty jq jqCheck _ _ _ _ _ He). simpl.
  by destruct w.
Qed.

(** X3.  No field-mutation event, submit click or [setDirty] call, and no
    [setAlert()] or [unsetAlert()] without an argument, ever writes to the
    options object: its contents are the same afterwards, in every state
    and whether or not the call throws. *)
Theorem X3_operations_keep_options (ops : list Op) (st : St) :
  defaults_obj (win (run_ops matches jqCheck ops st)) = defaults_obj (win st) ∧
  defaults_obj (win (exec (setAlert None) st)) = defaults_obj (win st) ∧
  defaults_obj (win (exec unsetAlert st)) = defaults_obj (win st).
Proof.
  split; [|split].
  - revert st. induction ops as [|op ops IH]; intros st; [done|].
    simpl. rewrite IH. apply ops_keep_config.
  - by apply (preserves_setAlert _ (framed_config (defaults_obj (win st)))).
  - by apply (preserves_unsetAlert _ (framed_config (defaults_obj (win st)))).
Qed.

(** X4.  [isException] never carries over: after a mutation event on a
    field that is not ignored it says whether that field matches the
    exceptions selector, whatever it said before; and [hasChanges] is true
    afterwards exactly if it was true before or the field is not an
    exception. *)
Theorem X4_isException_per_event (st : St) (t : nat) (f g : Fn) :
  initialised (this st) = true →
  prop (defaults_obj (win st)) "onSetAlert" = VFun f →
  prop (defaults_obj (win st)) "onUnsetAlert" = VFun g →
  jq_is matches (dom (win st)) [t]
    (prop (defaults_obj (win st)) "watchChangesIgnored") = false →
  isException (this (exec (onFieldMutation matches jqCheck t) st)) =
    jq_is matches (dom (win st)) [t]
      (prop (defaults_obj (win st)) "watchChangesExceptions") ∧
  hasChanges (this (exec (onFieldMutation matches jqCheck t) st)) =
    hasChanges (this st) ||
    negb (jq_is matches (dom (win st)) [t]
            (prop (defaults_obj (win st)) "watchChangesExceptions")).
Proof.
  intros Hi Hf Hg Hig. destruct st as [s w]. simpl in *.
  destruct (initialised_inv s Hi) as [Ho [note [saved [sel [Hn [Hs Hl]]]]]].
  unfold exec.
  destruct (jq_is matches (dom w) [t]
              (prop (defaults_obj w) "watchChangesExceptions")) eqn:Hex.
  - destruct (hasChanges s) eqn:Hc.
    + rewrite (onFieldMutation_single matches jqCheck s w t sel _ Hl
        (change_handler_exception_dirty matches jqCheck jqCheck_jq s w t
           {| target := t; immediatePropagationStopped := false |} f g note saved
           Ho Hn Hs Hc Hf Hg eq_refl Hig Hex)).
      simpl. by rewrite Hc.
    + rewrite (onFieldMutation_single matches jqCheck s w t sel _ Hl
        (change_handler_exception_clean matches jqCheck jqCheck_jq s w t
           {| target := t; immediatePropagationStopped := false |} g note saved
           Ho Hn Hs Hc Hg eq_refl Hig Hex)).
      simpl. by rewrite Hc.
  - rewrite (onFieldMutation_single matches jqCheck s w t sel _ Hl
      (change_handler_plain matches jqCheck jqCheck_jq s w t
         {| target := t; immediatePropagationStopped := false |} f note saved
         Ho Hn Hs Hf eq_refl Hig Hex)).
    simpl. by rewrite orb_true_r.
Qed.

(** X5.  [checkForException] on an element set that turns out empty
    returns [true] and changes nothing: neither [isException] nor
    [hasChanges] is assigned. *)
Theorem X5_checkForException_empty (st : St) (x : JqArg) :
  options (this st) = Some Ref_defaults →
  jqCheck (dom (win st)) x = [] →
  checkForException matches jqCheck x st = (st, inr true).
Proof.
  intros Ho He. destruct st as [s w]. simpl in *.
  unfold checkForException. unfold bind at 1. simpl.
  rewrite (bind_inr _ _ _ _ _ (this_options_ok s w Ho)).
  by rewrite He.
Qed.

(** X6.  The handler that arming installs on a page without one is the
    closure over the shared options object, and it reads the options when
    it fires, not when it was installed: whenever it runs it calls the
    [onUnload] callback configured at that moment, once, and returns the
    alert message configured at that moment; nothing else changes. *)
Theorem X6_beforeunload_prompt (st st' : St) (f u : Fn) :
  initialised (this st) = true →
  onbeforeunload (win st) = None →
  prop (defaults_obj (win st)) "onSetAlert" = VFun f →
  prop (defaults_obj (win st')) "onUnload" = VFun u →
  onbeforeunload (win (exec (setDirty true) st)) =
    Some (BeforeUnload (Shared Ref_defaults)) ∧
  beforeunload_handler (Shared Ref_defaults) st' =
    ({| this := this st'; win := log_call u (win st') |},
     inr (prop (defaults_obj (win st')) "watchChangesAlert")).
Proof.
  intros Hi Hnone Hf Hu. split.
  - destruct st as [s w]. simpl in *.
    destruct (initialised_inv s Hi) as [Ho [note [saved [sel [Hn [Hs Hl]]]]]].
    unfold exec, setDirty, updateHasChanges. unfold bind, modify_this. simpl.
    rewrite (updateStatusNote_dirty _ w f note saved) by done.
    simpl. unfold arm. simpl. by rewrite Hnone.
  - destruct st' as [s' w']. simpl in *.
    unfold beforeunload_handler, deref, bind, get_win, ret. simpl.
    by rewrite Hu.
Qed.

(** X7.  [setAlert(options)] with an options argument writes the argument's
    defined entries (["__proto__"] apart, which is never written) into the
    shared options object and keeps every other key; it then calls the
    [onSetAlert] of the options as overridden (once), and leaves the guard
    armed.  The session's fields and the DOM are not touched. *)
Theorem X7_setAlert_override (st : St) (o : Obj) (f : Fn) :
  options (this st) = Some Ref_defaults →
  prop (extend1 (defaults_obj (win st)) (Some o)) "onSetAlert" = VFun f →
  outcome (setAlert (Some o)) st = inr () ∧
  this (exec (setAlert (Some o)) st) = this st ∧
  (∀ k, k ≠ "__proto__" →
        prop (defaults_obj (win (exec (setAlert (Some o)) st))) k =
        if is_undefined (prop o k) then prop (defaults_obj (win st)) k
        else prop o k) ∧
  defaults_obj (win (exec (setAlert (Some o)) st)) !! "__proto__" =
    defaults_obj (win st) !! "__proto__" ∧
  calls (win (exec (setAlert (Some o)) st)) = (calls (win st) ++ [Called f])%list ∧
  armed (win (exec (setAlert (Some o)) st)) = true ∧
  dom (win (exec (setAlert (Some o)) st)) = dom (win st).
Proof.
  intros Ho Hf. destruct st as [s w]. simpl in *.
  unfold exec, outcome. rewrite (setAlert_with s w o f Ho Hf). simpl.
  rewrite defaults_obj_arm, calls_arm, armed_arm, dom_arm. simpl.
  split; [done|]. split; [done|]. split.
  { intros k Hk. by apply prop_extend1_Some. }
  split; [apply extend1_proto|]. done.
Qed.

(** X8.  The guard is one per page, not one per watcher.  When one
    watcher has unsaved changes and has armed the guard, a submit click
    handled by another watcher, or that other watcher's [setDirty(false)],
    leaves the page without a guard although the first watcher still has
    [hasChanges] true. *)
Theorem X8_shared_guard (sA sB : Session) (w : World) (t t' : nat) (f g : Fn) :
  initialised sA = true →
  initialised sB = true →
  prop (defaults_obj w) "onSetAlert" = VFun f →
  prop (defaults_obj w) "onUnsetAlert" = VFun g →
  jq_is matches (dom w) [t] (prop (defaults_obj w) "watchChangesIgnored") = false →
  jq_is matches (dom w) [t] (prop (defaults_obj w) "watchChangesExceptions") = false →
  let stA := exec (onFieldMutation matches jqCheck t) {| this := sA; win := w |} in
  hasChanges (this stA) = true ∧
  armed (win stA) = true ∧
  armed (win (exec (onSubmitIntent t') {| this := sB; win := win stA |})) = false ∧
  armed (win (exec (setDirty false) {| this := sB; win := win stA |})) = false.
Proof.
  intros HiA HiB Hf Hg Hig Hex stA. subst stA.
  destruct (initialised_inv sA HiA) as [HoA [noteA [savedA [selA [HnA [HsA HlA]]]]]].
  destruct (initialised_inv sB HiB) as [HoB [noteB [savedB [selB [HnB [HsB HlB]]]]]].
  unfold exec at 1 2 4 6.
  rewrite (onFieldMutation_single matches jqCheck sA w t selA _ HlA
    (change_handler_plain matches jqCheck jqCheck_jq sA w t
       {| target := t; immediatePropagationStopped := false |} f noteA savedA
       HoA HnA HsA Hf eq_refl Hig Hex)).
  simpl. rewrite armed_arm.
  split; [done|]. split; [done|]. split.
  - unfold exec. erewrite (onSubmitIntent_single sB _ t' selB g HoB HlB); [done|].
    by rewrite defaults_obj_arm; simpl; rewrite defaults_obj_arm.
  - unfold exec, setDirty, updateHasChanges. unfold bind, modify_this. simpl.
    erewrite (updateStatusNote_clean _ _ g noteB savedB); [done|done..|].
    by rewrite defaults_obj_arm; simpl; rewrite defaults_obj_arm.
Qed.

(** X9.  The status update is idempotent on what the page shows and on the
    guard: running [updateStatusNote()] a second time leaves the DOM,
    [window.onbeforeunload], the session and the options exactly as the
    first run left them (only the callback is called again). *)
Theorem X9_status_update_idempotent (st : St) (f g : Fn) :
  initialised (this st) = true →
  prop (defaults_obj (win st)) "onSetAlert" = VFun f →
  prop (defaults_obj (win st)) "onUnsetAlert" = VFun g →
  let st1 := exec (updateStatusNote VUndefined) st in
  let st2 := exec (updateStatusNote VUndefined) st1 in
  outcome (updateStatusNote VUndefined) st1 = inr () ∧
  dom (win st2) = dom (win st1) ∧
  onbeforeunload (win st2) = onbeforeunload (win st1) ∧
  this st2 = this st1 ∧
  defaults_obj (win st2) = defaults_obj (win st1).
Proof.
  intros Hi Hf Hg st1 st2. subst st1 st2. destruct st as [s w]. simpl in *.
  destruct (initialised_inv s Hi) as [Ho [note [saved [sel [Hn [Hs Hl]]]]]].
  unfold exec, outcome. destruct (hasChanges s) eqn:Hc.
  - rewrite (updateStatusNote_dirty s w f note saved) by done. simpl.
    rewrite (updateStatusNote_dirty s _ f note saved)
      by (try done; by rewrite defaults_obj_arm).
    simpl. rewrite !defaults_obj_arm, !dom_arm. simpl.
    rewrite present_dirty_idem.
    destruct w as [dobj obu d cl]. unfold arm. simpl. by destruct obu.
  - rewrite (updateStatusNote_clean s w g note saved) by done. simpl.
    rewrite (updateStatusNote_clean s _ g note saved) by done.
    simpl. by rewrite present_clean_idem.
Qed.


(** X11.  On a watcher whose constructor returned early (no options, no
    status or saved-message set), [setAlert()], [unsetAlert()],
    [checkForException], [updateStatusNote], [hideSavedChangesMessage] and
    [showSavedChangesMessage] all throw a [TypeError] and change nothing;
    [updateHasChanges(b)] throws too, but only after it has assigned
    [hasChanges = b]. *)
Theorem X11_uninitialised_methods_throw (st : St) (x : JqArg) (v : Value) (b : bool) :
  options (this st) = None →
  statusNote (this st) = None →
  savedChanges (this st) = None →
  setAlert None st = (st, inl TypeError) ∧
  unsetAlert st = (st, inl TypeError) ∧
  checkForException matches jqCheck x st = (st, inl TypeError) ∧
  updateStatusNote v st = (st, inl TypeError) ∧
  hideSavedChangesMessage st = (st, inl TypeError) ∧
  showSavedChangesMessage st = (st, inl TypeError) ∧
  updateHasChanges b st =
    ({| this := set_hasChanges b (this st); win := win st |}, inl TypeError).
Proof.
  intros Ho Hn Hs. destruct st as [s w]. simpl in *.
  assert (this_options {| this := s; win := w |} =
          ({| this := s; win := w |}, inl TypeError)) as Hto.
  { unfold this_options, bind, get_this. simpl. by rewrite Ho. }
  assert (∀ v', updateStatusNote v' {| this := s; win := w |} =
                ({| this := s; win := w |}, inl TypeError)) as Hup.
  { intros v'. unfold updateStatusNote. destruct (truthy v').
    - unfold bind at 1. simpl. unfold bind at 1. simpl.
      destruct (hasChanges s);
        unfold this_statusNote, bind, get_this; simpl; by rewrite Hn.
    - by rewrite (bind_inl _ _ _ _ _ (bind_inl _ _ _ _ _ Hto)). }
  split_and!.
  - unfold setAlert, extend_this_options, deref, bind, get_this, get_win, ret.
    simpl. rewrite Ho. simpl. rewrite extend1_None. by rewrite prop_empty.
  - unfold unsetAlert. by rewrite (bind_inl _ _ _ _ _ Hto).
  - unfold checkForException. unfold bind at 1. simpl.
    by rewrite (bind_inl _ _ _ _ _ Hto).
  - apply Hup.
  - unfold hideSavedChangesMessage, this_savedChanges, bind, get_this. simpl.
    by rewrite Hs.
  - unfold showSavedChangesMessage, this_savedChanges, bind, get_this. simpl.
    by rewrite Hs.
  - unfold updateHasChanges. unfold bind at 1. simpl.
    unfold updateStatusNote. simpl.
    unfold this_options, bind, get_this. simpl. by rewrite Ho.
Qed.

(** X12.  [updateStatusNote(status)] on a dirty session, for a status that is
    data rather than a function: it shows [status] when it is truthy and
    the configured status message otherwise (so an empty string, [null],
    [false] or [0] falls back to the configured message); the saved message
    is hidden and the guard armed as without argument. *)
Theorem X12_status_argument (st : St) (status : Value) (f : Fn)
    (note saved : list nat) :
  initialised (this st) = true →
  statusNote (this st) = Some note →
  savedChanges (this st) = Some saved →
  hasChanges (this st) = true →
  prop (defaults_obj (win st)) "onSetAlert" = VFun f →
  is_undefined
    (js_or status (prop (defaults_obj (win st)) "watchChangesStatus")) = false →
  is_function
    (js_or status (prop (defaults_obj (win st)) "watchChangesStatus")) = false →
  outcome (updateStatusNote status) st = inr () ∧
  dirty_presented
    (if truthy status then status
     else prop (defaults_obj (win st)) "watchChangesStatus")
    note saved (dom (win (exec (updateStatusNote status) st))) ∧
  armed (win (exec (updateStatusNote status) st)) = true.
Proof.
  intros Hi Hn Hs Hc Hf Hv _. destruct st as [s w]. simpl in *.
  destruct (initialised_inv s Hi) as [Ho _].
  unfold exec, outcome.
  rewrite (updateStatusNote_dirty_with s w f note saved status) by done.
  simpl. rewrite armed_arm, dom_arm. simpl.
  split; [done|]. split; [|done].
  by apply present_dirty_spec.
Qed.

(** X13.  From construction to the first edit: a watcher constructed on a
    non-empty region and then sent a mutation event on a field that is
    neither ignored nor an exception has [hasChanges] true and
    [isException] false, the guard is armed, and the elements found by the
    resolved status and saved-message selectors show the dirty
    presentation with the resolved status message. *)
Theorem X13_construct_then_edit (scope_arg : Value) (opts : option Obj)
    (w : World) (t : nat) (f : Fn) :
  jqCheck (dom w) (ArgValue scope_arg) ≠ [] →
  let st0 := (construct jq jqCheck scope_arg opts w).1 in
  let cfg := defaults_obj (win st0) in
  prop cfg "onSetAlert" = VFun f →
  is_undefined (prop cfg "watchChangesStatus") = false →
  jq_is matches (dom w) [t] (prop cfg "watchChangesIgnored") = false →
  jq_is matches (dom w) [t] (prop cfg "watchChangesExceptions") = false →
  outcome (onFieldMutation matches jqCheck t) st0 =
    inr {| target := t; immediatePropagationStopped := false |} ∧
  hasChanges (this (exec (onFieldMutation matches jqCheck t) st0)) = true ∧
  isException (this (exec (onFieldMutation matches jqCheck t) st0)) = false ∧
  armed (win (exec (onFieldMutation matches jqCheck t) st0)) = true ∧
  dirty_presented (prop cfg "watchChangesStatus")
    (jq (dom w) (prop cfg "watchChangesStatusElement"))
    (jq (dom w) (prop cfg "watchChangesSavedElement"))
    (dom (win (exec (onFieldMutation matches jqCheck t) st0))).
Proof.
  intros Hne st0 cfg. subst st0 cfg.
  destruct (jqCheck (dom w) (ArgValue scope_arg)) as [|el els] eqn:He; [done|].
  rewrite (construct_nonempty jq jqCheck _ _ _ _ _ He). simpl.
  set (o := extend_all (defaults_obj w) [opts; jq_data (dom w) (el :: els)]).
  intros Hf Hv Hig Hex. unfold exec, outcome.
  erewrite (onFieldMutation_single matches jqCheck _ _ t); [|done|].
  2:{ apply (change_handler_plain matches jqCheck jqCheck_jq _ _ t _ f
               (jq (dom w) (prop o "watchChangesStatusElement"))
               (jq (dom w) (prop o "watchChangesSavedElement")));
        try done; by destruct w. }
  simpl. rewrite armed_arm, !dom_arm. simpl. rewrite dom_arm.
  destruct w as [dobj obu d cl]. simpl in *.
  refine (conj _ (conj _ (conj _ (conj _ _)))); try done.
  by apply present_dirty_spec.
Qed.

(** X14.  How often the callbacks run for one mutation event on a field
    that is not ignored: [onSetAlert] twice for a plain field (once from
    the status update, once from the handler); [onSetAlert] then
    [onUnsetAlert] for an exception field while dirty; [onUnsetAlert] twice
    for an exception field while clean.  No other callback is called. *)
Theorem X14_callbacks_per_event (st : St) (t : nat) (f g : Fn) :
  initialised (this st) = true →
  prop (defaults_obj (win st)) "onSetAlert" = VFun f →
  prop (defaults_obj (win st)) "onUnsetAlert" = VFun g →
  jq_is matches (dom (win st)) [t]
    (prop (defaults_obj (win st)) "watchChangesIgnored") = false →
  calls (win (exec (onFieldMutation matches jqCheck t) st)) =
    (calls (win st) ++
     if jq_is matches (dom (win st)) [t]
          (prop (defaults_obj (win st)) "watchChangesExceptions")
     then if hasChanges (this st) then [Called f; Called g]
          else [Called g; Called g]
     else [Called f; Called f])%list.
Proof.
  intros Hi Hf Hg Hig. destruct st as [s w]. simpl in *.
  destruct (initialised_inv s Hi) as [Ho [note [saved [sel [Hn [Hs Hl]]]]]].
  unfold exec.
  destruct (jq_is matches (dom w) [t]
              (prop (defaults_obj w) "watchChangesExceptions")) eqn:Hex.
  - destruct (hasChanges s) eqn:Hc.
    + rewrite (onFieldMutation_single matches jqCheck s w t sel _ Hl
        (change_handler_exception_dirty matches jqCheck jqCheck_jq s w t
           {| target := t; immediatePropagationStopped := false |} f g note saved
           Ho Hn Hs Hc Hf Hg eq_refl Hig Hex)).
      simpl. rewrite calls_arm. simpl. by rewrite <- app_assoc.
    + rewrite (onFieldMutation_single matches jqCheck s w t sel _ Hl
        (change_handler_exception_clean matches jqCheck jqCheck_jq s w t
           {| target := t; immediatePropagationStopped := false |} g note saved
           Ho Hn Hs Hc Hg eq_refl Hig Hex)).
      simpl. by rewrite <- app_assoc.
  - rewrite (onFieldMutation_single matches jqCheck s w t sel _ Hl
      (change_handler_plain matches jqCheck jqCheck_jq s w t
         {| target := t; immediatePropagationStopped := false |} f note saved
         Ho Hn Hs Hf eq_refl Hig Hex)).
    simpl. rewrite !calls_arm. simpl. rewrite calls_arm. simpl.
    by rewrite <- app_assoc.
Qed.

(** X15.  The bound keyup/change handler reads the ignored selector from
    the options when the event arrives.  After [setAlert(options)] has
    overridden the options, a field matching the ignored selector now in
    force is ignored by the handlers bound earlier: the event changes
    nothing.  The handlers themselves (and the click selector they were
    bound with) are as before. *)
Theorem X15_override_reaches_bound_handler (st : St) (o : Obj) (t : nat) (f : Fn) :
  initialised (this st) = true →
  prop (extend1 (defaults_obj (win st)) (Some o)) "onSetAlert" = VFun f →
  jq_is matches (dom (win st)) [t]
    (prop (extend1 (defaults_obj (win st)) (Some o)) "watchChangesIgnored") = true →
  listeners (this (exec (setAlert (Some o)) st)) = listeners (this st) ∧
  onFieldMutation matches jqCheck t (exec (setAlert (Some o)) st) =
    (exec (setAlert (Some o)) st,
     inr {| target := t; immediatePropagationStopped := false |}).
Proof.
  intros Hi Hf Hig. destruct st as [s w]. simpl in *.
  destruct (initialised_inv s Hi) as [Ho [note [saved [sel [Hn [Hs Hl]]]]]].
  unfold exec. rewrite (setAlert_with s w o f Ho Hf). simpl.
  split; [done|].
  apply (onFieldMutation_single matches jqCheck s _ t sel _ Hl).
  apply change_handler_ignored. simpl.
  by rewrite defaults_obj_arm, dom_arm.
Qed.

End Further.

(** * The claims on the concrete page *)

Lemma demo_jqCheck_jq d els : demo_jqCheck d (ArgJq els) = els.
Proof. reflexivity. Qed.

(** ** C1 *)

(** After a keyup on the exception field, [setDirty(true)] arms the guard
    although [hasChanges && !isException] is false: C1 as stated fails. *)
Lemma C1_counterexample :
  let st := exec (setDirty true) demo_excepted in
  ¬ (armed (win st) = true ↔
     hasChanges (this st) && negb (isException (this st)) = true).
Proof.
  intros st [Hto _].
  assert (armed (win st) = true) as Ha by (vm_compute; reflexivity).
  assert (hasChanges (this st) && negb (isException (this st)) = false) as Hb
    by (vm_compute; reflexivity).
  rewrite (Hto Ha) in Hb. discriminate Hb.
Qed.

Lemma C1_witness :
  (∀ t,
     jq_is demo_matches (dom (win demo_excepted)) [t]
       (prop (defaults_obj (win demo_excepted)) "watchChangesIgnored") = false →
     outcome (onFieldMutation demo_matches demo_jqCheck t) demo_excepted =
       inr {| target := t; immediatePropagationStopped := false |} ∧
     armed (win (exec (onFieldMutation demo_matches demo_jqCheck t) demo_excepted)) =
       hasChanges (this (exec (onFieldMutation demo_matches demo_jqCheck t) demo_excepted)) &&
       negb (isException (this (exec (onFieldMutation demo_matches demo_jqCheck t) demo_excepted)))) ∧
  (∀ b,
     outcome (setDirty b) demo_excepted = inr () ∧
     hasChanges (this (exec (setDirty b) demo_excepted)) = b ∧
     isException (this (exec (setDirty b) demo_excepted)) =
       isException (this demo_excepted) ∧
     armed (win (exec (setDirty b) demo_excepted)) = b).
Proof.
  apply (C1_guard_after_update demo_matches demo_jqCheck demo_jqCheck_jq
           demo_excepted DefaultOnSetAlert DefaultOnUnsetAlert);
    vm_compute; reflexivity.
Defined.

(** ** C2 *)

Lemma C2_witness :
  let ops := [ FieldMutation 2; SubmitIntent 2; SetDirty true;
               FieldMutation 5; FieldMutation 1 ] in
  hasChanges (this (step demo_matches demo_jqCheck (FieldMutation 1) demo_session)) = true ∧
  hasChanges (this (run_ops demo_matches demo_jqCheck ops
                      (step demo_matches demo_jqCheck (FieldMutation 1) demo_session))) = true.
Proof.
  intros ops.
  apply (C2_hasChanges_monotone demo_matches demo_jqCheck demo_jqCheck_jq
           demo_session 1 ops).
  - vm_compute; reflexivity.
  - vm_compute; reflexivity.
  - vm_compute; reflexivity.
  - repeat constructor; discriminate.
Defined.

(** ** C3 *)

Lemma C3_witness :
  outcome (onSubmitIntent 2) demo_dirty =
    inr {| target := 2; immediatePropagationStopped := true |} ∧
  armed (win (exec (onSubmitIntent 2) demo_dirty)) = false ∧
  this (exec (onSubmitIntent 2) demo_dirty) = this demo_dirty ∧
  dom (win (exec (onSubmitIntent 2) demo_dirty)) = dom (win demo_dirty) ∧
  defaults_obj (win (exec (onSubmitIntent 2) demo_dirty)) =
    defaults_obj (win demo_dirty) ∧
  calls (win (exec (onSubmitIntent 2) demo_dirty)) =
    (calls (win demo_dirty) ++ [Called DefaultOnUnsetAlert])%list.
Proof.
  apply (C3_submit_intent_disarms demo_dirty 2 DefaultOnUnsetAlert);
    vm_compute; reflexivity.
Defined.

(** ** C4 *)

Lemma C4_witness :
  onFieldMutation demo_matches demo_jqCheck 5 demo_dirty =
  (demo_dirty, inr {| target := 5; immediatePropagationStopped := false |}).
Proof.
  apply (C4_ignored_target_inert demo_matches demo_jqCheck demo_dirty 5).
  assert (listeners (this demo_dirty) =
          [ {| click_selector := VStr "[type=submit], [data-submit]";
               closure_options := Shared Ref_defaults |} ]) as ->
    by (vm_compute; reflexivity).
  constructor; [vm_compute; reflexivity | constructor].
Defined.

(** ** C5 *)

(** On the watcher built for a selector that matches nothing,
    [setDirty(true)] throws a [TypeError] (reading a property of the
    missing [this.options]), after having assigned [hasChanges]: C5 as
    stated fails. *)
Lemma C5_counterexample :
  ¬ (outcome (setDirty true) demo_inert = inr () ∧
     exec (setDirty true) demo_inert = demo_inert).
Proof.
  intros [Hok _].
  assert (outcome (setDirty true) demo_inert = inl TypeError) as Hthrow
    by (vm_compute; reflexivity).
  rewrite Hthrow in Hok. discriminate Hok.
Qed.

Lemma C5_witness :
  construct demo_jq demo_jqCheck (VStr "#missing") None demo_page =
    ({| this := new_object; win := demo_page |}, inr ()) ∧
  ∀ t,
    onFieldMutation demo_matches demo_jqCheck t
      {| this := new_object; win := demo_page |} =
      ({| this := new_object; win := demo_page |},
       inr {| target := t; immediatePropagationStopped := false |}) ∧
    onSubmitIntent t {| this := new_object; win := demo_page |} =
      ({| this := new_object; win := demo_page |},
       inr {| target := t; immediatePropagationStopped := false |}).
Proof.
  apply (C5_empty_region_inert demo_matches demo_jq demo_jqCheck
           (VStr "#missing") None demo_page).
  vm_compute; reflexivity.
Defined.

(** ** C6 *)

(** C6 at a second construction.  The first form is constructed with
    [{watchChangesStatus: "Draft not saved"}]; the second form, which has
    no data attributes, is then constructed without options.  Its resolved
    status message is the first call's override, not the default. *)
Theorem C6_second_construction_inherits_override :
  dataOptions (this demo_second_plain) = Some ∅ ∧
  (λ o, prop o "watchChangesStatus") <$> config demo_second_plain =
    Some (VStr "Draft not saved") ∧
  prop _defaults "watchChangesStatus" =
    VStr "There are unsaved changes on this page".
Proof. vm_compute. done. Qed.

(** ** C7 *)

(** On the session whose last event was on an exception field,
    [setDirty(true)] leaves the guard armed, whereas assigning
    [hasChanges = true] and running steps 3-4 of the handler leaves it
    disarmed: C7 as stated fails. *)
Lemma C7_counterexample :
  armed (win (exec (setDirty true) demo_excepted)) ≠
  armed (win (exec (assign_then_steps_3_4 true) demo_excepted)).
Proof.
  assert (armed (win (exec (setDirty true) demo_excepted)) = true) as ->
    by (vm_compute; reflexivity).
  assert (armed (win (exec (assign_then_steps_3_4 true) demo_excepted)) = false)
    as -> by (vm_compute; reflexivity).
  discriminate.
Qed.

Lemma C7_witness :
  outcome (setDirty true) demo_excepted = inr () ∧
  hasChanges (this (exec (setDirty true) demo_excepted)) = true ∧
  isException (this (exec (setDirty true) demo_excepted)) =
    isException (this demo_excepted) ∧
  dirty_presented (prop (defaults_obj (win demo_excepted)) "watchChangesStatus")
    [3] [4] (dom (win (exec (setDirty true) demo_excepted))) ∧
  armed (win (exec (setDirty true) demo_excepted)) = true.
Proof.
  apply (C7_setDirty_presentation demo_excepted true
           DefaultOnSetAlert DefaultOnUnsetAlert [3] [4]);
    vm_compute; reflexivity.
Defined.

(** ** C8 *)

(** C8 at the construction of a second session.  The first form's session
    was constructed without options; constructing a session for the second
    form with [{watchChangesAlert: "Leave the other form?"}] changes the
    alert message the first session is configured with. *)
Theorem C8_other_construction_rewrites_config :
  this demo_session_afterwards = this demo_session ∧
  (λ o, prop o "watchChangesAlert") <$> config demo_session =
    Some (prop _defaults "watchChangesAlert") ∧
  (λ o, prop o "watchChangesAlert") <$> config demo_session_afterwards =
    Some (VStr "Leave the other form?").
Proof. vm_compute. done. Qed.

(** ** C9 *)

(** With the guard armed and a caller's [onSetAlert] configured, a further
    [setAlert()] calls that callback once more: C9 as stated ("no
    observable effect") fails. *)
Lemma C9_counterexample :
  armed (win demo_hooked) = true ∧
  calls (win (exec (setAlert None) demo_hooked)) =
    (calls (win demo_hooked) ++ [Called (UserFn 1)])%list ∧
  exec (setAlert None) demo_hooked ≠ demo_hooked.
Proof.
  assert (calls (win (exec (setAlert None) demo_hooked)) =
          (calls (win demo_hooked) ++ [Called (UserFn 1)])%list) as Hc
    by (vm_compute; reflexivity).
  split; [vm_compute; reflexivity|]. split; [exact Hc|].
  intros Heq. rewrite Heq in Hc. revert Hc.
  generalize (calls (win demo_hooked)). intros l Hl.
  apply (f_equal length) in Hl. rewrite length_app in Hl. simpl in Hl. lia.
Qed.

Lemma C9_witness :
  let opts : option Obj := Some {[ "watchChangesAlert" := VStr "Really leave?" ]} in
  setAlert opts demo_hooked =
    ({| this := this demo_hooked;
        win := log_call (UserFn 1)
                 (set_defaults_obj (extend1 (defaults_obj (win demo_hooked)) opts)
                    (win demo_hooked)) |}, inr ()) ∧
  onbeforeunload (win (exec (setAlert opts) demo_hooked)) =
    Some (BeforeUnload (Shared Ref_defaults)) ∧
  (opts = None →
   setAlert opts demo_hooked =
     ({| this := this demo_hooked; win := log_call (UserFn 1) (win demo_hooked) |},
      inr ())) ∧
  (∀ u, prop (extend1 (defaults_obj (win demo_hooked)) opts) "onUnload" = VFun u →
        outcome (beforeunload_handler (Shared Ref_defaults))
          (exec (setAlert opts) demo_hooked) =
        inr (prop (extend1 (defaults_obj (win demo_hooked)) opts) "watchChangesAlert")).
Proof.
  intros opts.
  apply (C9_arm_when_armed demo_hooked (BeforeUnload (Shared Ref_defaults))
           opts (UserFn 1));
    vm_compute; reflexivity.
Defined.

(** ** C10 *)


(** * The further properties on the concrete page *)

Lemma X1_witness :
  ∃ o, config (construct demo_jq demo_jqCheck (VStr "#other-form")
                 (Some {[ "watchChangesStatus" := VStr "From the options" ]})
                 demo_attr_page).1 = Some o ∧
       prop o "watchChangesStatus" =
         (if negb (is_undefined
                     (prop (default ∅ (data <$> dom demo_attr_page !! 6%nat))
                        "watchChangesStatus"))
          then prop (default ∅ (data <$> dom demo_attr_page !! 6%nat))
                 "watchChangesStatus"
          else if negb (is_undefined
                          (prop (default ∅
                                   (Some {[ "watchChangesStatus" :=
                                              VStr "From the options" ]}))
                             "watchChangesStatus"))
               then prop (default ∅
                            (Some {[ "watchChangesStatus" :=
                                       VStr "From the options" ]}))
                      "watchChangesStatus"
               else prop (defaults_obj demo_attr_page) "watchChangesStatus") ∧
       o !! "__proto__" = defaults_obj demo_attr_page !! "__proto__".
Proof.
  apply (X1_option_resolution demo_jq demo_jqCheck (VStr "#other-form")
           (Some {[ "watchChangesStatus" := VStr "From the options" ]})
           demo_attr_page 6 [] "watchChangesStatus").
  - vm_compute; reflexivity.
  - discriminate.
Defined.

Lemma X2_witness :
  let st := (construct demo_jq demo_jqCheck (VStr ".js-watch-changes") None
               demo_page).1 in
  (construct demo_jq demo_jqCheck (VStr ".js-watch-changes") None demo_page).2 =
    inr () ∧
  initialised (this st) = true ∧
  hasChanges (this st) = false ∧ isException (this st) = false ∧
  scope (this st) = demo_jqCheck (dom demo_page) (ArgValue (VStr ".js-watch-changes")) ∧
  statusNote (this st) =
    Some (demo_jq (dom demo_page)
            (prop (defaults_obj (win st)) "watchChangesStatusElement")) ∧
  savedChanges (this st) =
    Some (demo_jq (dom demo_page)
            (prop (defaults_obj (win st)) "watchChangesSavedElement")) ∧
  click_selector <$> listeners (this st) =
    [ prop (defaults_obj (win st)) "watchChangesSubmits" ] ∧
  dom (win st) = dom demo_page ∧
  onbeforeunload (win st) = onbeforeunload demo_page ∧
  calls (win st) = calls demo_page.
Proof.
  apply (X2_construction_effects demo_jq demo_jqCheck
           (VStr ".js-watch-changes") None demo_page).
  by vm_compute.
Defined.

Lemma X4_witness :
  isException (this (exec (onFieldMutation demo_matches demo_jqCheck 1) demo_excepted)) =
    jq_is demo_matches (dom (win demo_excepted)) [1]
      (prop (defaults_obj (win demo_excepted)) "watchChangesExceptions") ∧
  hasChanges (this (exec (onFieldMutation demo_matches demo_jqCheck 1) demo_excepted)) =
    hasChanges (this demo_excepted) ||
    negb (jq_is demo_matches (dom (win demo_excepted)) [1]
            (prop (defaults_obj (win demo_excepted)) "watchChangesExceptions")).
Proof.
  apply (X4_isException_per_event demo_matches demo_jqCheck demo_jqCheck_jq
           demo_excepted 1 DefaultOnSetAlert DefaultOnUnsetAlert);
    vm_compute; reflexivity.
Defined.

Lemma X5_witness :
  checkForException demo_matches demo_jqCheck (ArgJq []) demo_dirty =
  (demo_dirty, inr true).
Proof.
  apply (X5_checkForException_empty demo_matches demo_jqCheck demo_dirty (ArgJq []));
    vm_compute; reflexivity.
Defined.

Lemma X6_witness :
  onbeforeunload (win (exec (setDirty true) demo_session)) =
    Some (BeforeUnload (Shared Ref_defaults)) ∧
  beforeunload_handler (Shared Ref_defaults) demo_session_afterwards =
    ({| this := this demo_session_afterwards;
        win := log_call DefaultOnUnload (win demo_session_afterwards) |},
     inr (prop (defaults_obj (win demo_session_afterwards)) "watchChangesAlert")).
Proof.
  apply (X6_beforeunload_prompt demo_session demo_session_afterwards
           DefaultOnSetAlert DefaultOnUnload);
    vm_compute; reflexivity.
Defined.

Lemma X7_witness :
  let o : Obj := {[ "watchChangesAlert" := VStr "Really leave?" ]} in
  outcome (setAlert (Some o)) demo_session = inr () ∧
  this (exec (setAlert (Some o)) demo_session) = this demo_session ∧
  (∀ k, k ≠ "__proto__" →
        prop (defaults_obj (win (exec (setAlert (Some o)) demo_session))) k =
        if is_undefined (prop o k) then prop (defaults_obj (win demo_session)) k
        else prop o k) ∧
  defaults_obj (win (exec (setAlert (Some o)) demo_session)) !! "__proto__" =
    defaults_obj (win demo_session) !! "__proto__" ∧
  calls (win (exec (setAlert (Some o)) demo_session)) =
    (calls (win demo_session) ++ [Called DefaultOnSetAlert])%list ∧
  armed (win (exec (setAlert (Some o)) demo_session)) = true ∧
  dom (win (exec (setAlert (Some o)) demo_session)) = dom (win demo_session).
Proof.
  intros o.
  apply (X7_setAlert_override demo_session o DefaultOnSetAlert);
    vm_compute; reflexivity.
Defined.

Lemma X8_witness :
  let stA := exec (onFieldMutation demo_matches demo_jqCheck 1)
               {| this := this demo_session; win := win demo_session |} in
  hasChanges (this stA) = true ∧
  armed (win stA) = true ∧
  armed (win (exec (onSubmitIntent 2)
                {| this := demo_second_session; win := win stA |})) = false ∧
  armed (win (exec (setDirty false)
                {| this := demo_second_session; win := win stA |})) = false.
Proof.
  apply (X8_shared_guard demo_matches demo_jqCheck demo_jqCheck_jq
           (this demo_session) demo_second_session (win demo_session) 1 2
           DefaultOnSetAlert DefaultOnUnsetAlert);
    vm_compute; reflexivity.
Defined.

Lemma X9_witness :
  let st1 := exec (updateStatusNote VUndefined) demo_dirty in
  let st2 := exec (updateStatusNote VUndefined) st1 in
  outcome (updateStatusNote VUndefined) st1 = inr () ∧
  dom (win st2) = dom (win st1) ∧
  onbeforeunload (win st2) = onbeforeunload (win st1) ∧
  this st2 = this st1 ∧
  defaults_obj (win st2) = defaults_obj (win st1).
Proof.
  apply (X9_status_update_idempotent demo_dirty
           DefaultOnSetAlert DefaultOnUnsetAlert);
    vm_compute; reflexivity.
Defined.


Lemma X11_witness :
  setAlert None demo_inert = (demo_inert, inl TypeError) ∧
  unsetAlert demo_inert = (demo_inert, inl TypeError) ∧
  checkForException demo_matches demo_jqCheck (ArgJq [1%nat]) demo_inert =
    (demo_inert, inl TypeError) ∧
  updateStatusNote (VStr "Saved") demo_inert = (demo_inert, inl TypeError) ∧
  hideSavedChangesMessage demo_inert = (demo_inert, inl TypeError) ∧
  showSavedChangesMessage demo_inert = (demo_inert, inl TypeError) ∧
  updateHasChanges true demo_inert =
    ({| this := set_hasChanges true (this demo_inert); win := win demo_inert |},
     inl TypeError).
Proof.
  apply (X11_uninitialised_methods_throw demo_matches demo_jqCheck
           demo_inert (ArgJq [1%nat]) (VStr "Saved") true);
    vm_compute; reflexivity.
Defined.

Lemma X12_witness :
  outcome (updateStatusNote (VStr "")) demo_dirty = inr () ∧
  dirty_presented
    (if truthy (VStr "") then VStr ""
     else prop (defaults_obj (win demo_dirty)) "watchChangesStatus")
    [3%nat] [4%nat] (dom (win (exec (updateStatusNote (VStr "")) demo_dirty))) ∧
  armed (win (exec (updateStatusNote (VStr "")) demo_dirty)) = true.
Proof.
  apply (X12_status_argument demo_dirty (VStr "") DefaultOnSetAlert
           [3%nat] [4%nat]);
    vm_compute; reflexivity.
Defined.

Lemma X13_witness :
  let st0 := (construct demo_jq demo_jqCheck (VStr ".js-watch-changes") None
                demo_page).1 in
  let cfg := defaults_obj (win st0) in
  outcome (onFieldMutation demo_matches demo_jqCheck 1) st0 =
    inr {| target := 1; immediatePropagationStopped := false |} ∧
  hasChanges (this (exec (onFieldMutation demo_matches demo_jqCheck 1) st0)) = true ∧
  isException (this (exec (onFieldMutation demo_matches demo_jqCheck 1) st0)) = false ∧
  armed (win (exec (onFieldMutation demo_matches demo_jqCheck 1) st0)) = true ∧
  dirty_presented (prop cfg "watchChangesStatus")
    (demo_jq (dom demo_page) (prop cfg "watchChangesStatusElement"))
    (demo_jq (dom demo_page) (prop cfg "watchChangesSavedElement"))
    (dom (win (exec (onFieldMutation demo_matches demo_jqCheck 1) st0))).
Proof.
  intros st0 cfg.
  apply (X13_construct_then_edit demo_matches demo_jq demo_jqCheck demo_jqCheck_jq
           (VStr ".js-watch-changes") None demo_page 1 DefaultOnSetAlert);
    try (vm_compute; reflexivity).
  by vm_compute.
Defined.

Lemma X14_witness :
  calls (win (exec (onFieldMutation demo_matches demo_jqCheck 2) demo_session)) =
    (calls (win demo_session) ++
     if jq_is demo_matches (dom (win demo_session)) [2]
          (prop (defaults_obj (win demo_session)) "watchChangesExceptions")
     then if hasChanges (this demo_session)
          then [Called DefaultOnSetAlert; Called DefaultOnUnsetAlert]
          else [Called DefaultOnUnsetAlert; Called DefaultOnUnsetAlert]
     else [Called DefaultOnSetAlert; Called DefaultOnSetAlert])%list.
Proof.
  apply (X14_callbacks_per_event demo_matches demo_jqCheck demo_jqCheck_jq
           demo_session 2 DefaultOnSetAlert DefaultOnUnsetAlert);
    vm_compute; reflexivity.
Defined.

Lemma X15_witness :
  let o : Obj := {[ "watchChangesIgnored" := VStr "[type=submit], [data-submit]" ]} in
  listeners (this (exec (setAlert (Some o)) demo_session)) =
    listeners (this demo_session) ∧
  onFieldMutation demo_matches demo_jqCheck 2 (exec (setAlert (Some o)) demo_session) =
    (exec (setAlert (Some o)) demo_session,
     inr {| target := 2; immediatePropagationStopped := false |}).
Proof.
  intros o.
  apply (X15_override_reaches_bound_handler demo_matches demo_jqCheck
           demo_session o 2 DefaultOnSetAlert);
    vm_compute; reflexivity.
Defined.
